(** * SpotifyAPI: a shallow embedding of [spotify.py]

    The class [SpotifyAPI] holds client credentials, obtains a bearer token
    from the authorization endpoint, renews it when it is older than one hour
    and offers two queries ([genres] and [search]).

    The embedding follows the Python source statement by statement:
    - the object is a record of optional attributes (an attribute that was
      never assigned raises [AttributeError] when read);
    - methods are computations in a state-and-exception monad over the object
      and the history of interactions with the outside world;
    - the outside world (wall clock and HTTP servers) is an arbitrary
      deterministic function of that history.

    Python [str] values are represented by their UTF-8 bytes ([string]), so
    that [str.encode()] and [bytes.decode()] are the identity.  The floating
    point readings of [time()] are idealised as rationals. *)

From Stdlib Require Import List String Ascii Bool.
From Stdlib Require Import Arith NArith ZArith QArith Qround Lia Lqa.
From Stdlib Require Import DecimalString.
Import ListNotations.

Local Open Scope string_scope.

(* ================================================================= *)
(** ** Python values *)

(** Values a caller may pass as [client_id] / [client_secret]. *)
Inductive pyval : Type :=
| PyNone
| PyBool (b : bool)
| PyInt (z : Z)
| PyStr (s : string).

(** [type(v) == str] *)
Definition is_str (v : pyval) : bool :=
  match v with
  | PyStr _ => true
  | _ => false
  end.

(** The text an f-string substitutes for [{v}], i.e. [format(v, '')]. *)
Definition py_format (v : pyval) : string :=
  match v with
  | PyNone => "None"
  | PyBool true => "True"
  | PyBool false => "False"
  | PyInt z => NilZero.string_of_int (Z.to_int z)
  | PyStr s => s
  end.

(** Parsed JSON, as [Response.json()] returns it. *)
#[local] Unset Elimination Schemes.
Inductive json : Type :=
| JNull
| JBool (b : bool)
| JInt (z : Z)
| JFloat (q : Q)
| JStr (s : string)
| JArr (l : list json)
| JObj (kvs : list (string * json)).
#[local] Set Elimination Schemes.

(** Exceptions, by Python class. *)
Inductive exn : Type :=
| TypeError (msg : string)
| AttributeError (attr : string)
| KeyError (key : string)
| RequestException (msg : string)
| JSONDecodeError.

Inductive result (A : Type) : Type :=
| Ok (a : A)
| Raise (e : exn).
Arguments Ok {A} a.
Arguments Raise {A} e.

(** Python dictionaries with string keys, in insertion order. *)
Definition dict (V : Type) : Type := list (string * V).

Fixpoint dict_lookup {V : Type} (k : string) (d : dict V) : option V :=
  match d with
  | [] => None
  | (k', v) :: d' => if String.eqb k k' then Some v else dict_lookup k d'
  end.

(** [d[k]] *)
Definition dict_getitem {V : Type} (d : dict V) (k : string) : result V :=
  match dict_lookup k d with
  | Some v => Ok v
  | None => Raise (KeyError k)
  end.

Definition is_substring (k s : string) : bool :=
  match index 0 k s with
  | Some _ => true
  | None => false
  end.

Definition json_eq_str (k : string) (v : json) : bool :=
  match v with
  | JStr s => String.eqb k s
  | _ => false
  end.

(** [k in v] for a string [k] and a parsed JSON value [v]. *)
Definition py_in (k : string) (v : json) : result bool :=
  match v with
  | JObj kvs =>
      Ok (match dict_lookup k kvs with Some _ => true | None => false end)
  | JArr l => Ok (existsb (json_eq_str k) l)
  | JStr s => Ok (is_substring k s)
  | _ => Raise (TypeError "argument is not iterable")
  end.

(** [v[k]] for a string [k] and a parsed JSON value [v]. *)
Definition py_getitem (v : json) (k : string) : result json :=
  match v with
  | JObj kvs => dict_getitem kvs k
  | JArr _ => Raise (TypeError "list indices must be integers or slices, not str")
  | JStr _ => Raise (TypeError "string indices must be integers")
  | _ => Raise (TypeError "object is not subscriptable")
  end.

(** [s + v] for a string literal [s]. *)
Definition py_str_add (s : string) (v : json) : result string :=
  match v with
  | JStr t => Ok (s ++ t)
  | _ => Raise (TypeError "can only concatenate str to str")
  end.

(* ================================================================= *)
(** ** base64.b64encode *)

Module Base64.

Definition alphabet : string :=
  "ABCDEFGHIJKLMNOPQRSTUVWXYZabcdefghijklmnopqrstuvwxyz0123456789+/".

Definition pad : ascii := "="%char.

(** The character for a 6-bit group. *)
Definition char_of (n : N) : ascii :=
  match String.get (N.to_nat n) alphabet with
  | Some c => c
  | None => pad
  end.

Definition hi6 (a : N) : N := N.shiftr a 2.
Definition lo2_hi4 (a b : N) : N :=
  N.lor (N.shiftl (N.land a 3) 4) (N.shiftr b 4).
Definition lo4_hi2 (b c : N) : N :=
  N.lor (N.shiftl (N.land b 15) 2) (N.shiftr c 6).
Definition lo6 (c : N) : N := N.land c 63.

(** Three bytes give four characters; a last group of one or two bytes is
    padded with [=]. *)
Fixpoint b64encode (s : string) : string :=
  match s with
  | EmptyString => EmptyString
  | String a EmptyString =>
      let a := N_of_ascii a in
      String (char_of (hi6 a))
        (String (char_of (lo2_hi4 a 0)) (String pad (String pad EmptyString)))
  | String a (String b EmptyString) =>
      let a := N_of_ascii a in
      let b := N_of_ascii b in
      String (char_of (hi6 a))
        (String (char_of (lo2_hi4 a b))
           (String (char_of (lo4_hi2 b 0)) (String pad EmptyString)))
  | String a (String b (String c rest)) =>
      let a := N_of_ascii a in
      let b := N_of_ascii b in
      let c := N_of_ascii c in
      String (char_of (hi6 a))
        (String (char_of (lo2_hi4 a b))
           (String (char_of (lo4_hi2 b c))
              (String (char_of (lo6 c)) (b64encode rest))))
  end.

(** The inverse direction, to state that the encoding loses nothing. *)
Fixpoint position (c : ascii) (s : string) (n : N) : option N :=
  match s with
  | EmptyString => None
  | String d s' => if Ascii.eqb c d then Some n else position c s' (N.succ n)
  end.

Definition value_of (c : ascii) : option N := position c alphabet 0.

Definition byte1 (v1 v2 : N) : ascii :=
  ascii_of_N (N.lor (N.shiftl v1 2) (N.shiftr v2 4)).
Definition byte2 (v2 v3 : N) : ascii :=
  ascii_of_N (N.lor (N.shiftl (N.land v2 15) 4) (N.shiftr v3 2)).
Definition byte3 (v3 v4 : N) : ascii :=
  ascii_of_N (N.lor (N.shiftl (N.land v3 3) 6) v4).

Fixpoint b64decode (s : string) : option string :=
  match s with
  | EmptyString => Some EmptyString
  | String c1 (String c2 (String c3 (String c4 rest))) =>
      match value_of c1, value_of c2 with
      | Some v1, Some v2 =>
          match value_of c3, value_of c4 with
          | Some v3, Some v4 =>
              match b64decode rest with
              | Some tail =>
                  Some (String (byte1 v1 v2)
                          (String (byte2 v2 v3) (String (byte3 v3 v4) tail)))
              | None => None
              end
          | Some v3, None =>
              if Ascii.eqb c4 pad && String.eqb rest EmptyString
              then Some (String (byte1 v1 v2)
                           (String (byte2 v2 v3) EmptyString))
              else None
          | None, _ =>
              if Ascii.eqb c3 pad && Ascii.eqb c4 pad
                 && String.eqb rest EmptyString
              then Some (String (byte1 v1 v2) EmptyString)
              else None
          end
      | _, _ => None
      end
  | _ => None
  end.

(** Every byte, for checks by enumeration. *)
Definition all_bytes : list ascii := map ascii_of_nat (seq 0 256).

Definition opt_eqb (x : option N) (n : N) : bool :=
  match x with Some m => N.eqb m n | None => false end.


(** Checks run over all pairs of bytes: the characters chosen for a group
    decode to its 6-bit values, and the values give the bytes back. *)
Definition group_ok1 (a b : ascii) : bool :=
  let A := N_of_ascii a in let B := N_of_ascii b in
  opt_eqb (value_of (char_of (hi6 A))) (hi6 A)
  && opt_eqb (value_of (char_of (lo2_hi4 A B))) (lo2_hi4 A B)
  && Ascii.eqb (byte1 (hi6 A) (lo2_hi4 A B)) a
  && N.eqb (N.land (lo2_hi4 A B) 15) (N.shiftr B 4).

Definition group_ok2 (b c : ascii) : bool :=
  let B := N_of_ascii b in let C := N_of_ascii c in
  opt_eqb (value_of (char_of (lo4_hi2 B C))) (lo4_hi2 B C)
  && opt_eqb (value_of (char_of (lo6 C))) (lo6 C)
  && Ascii.eqb
       (ascii_of_N (N.lor (N.shiftl (N.shiftr B 4) 4) (N.shiftr (lo4_hi2 B C) 2))) b
  && Ascii.eqb (byte3 (lo4_hi2 B C) (lo6 C)) c.

End Base64.

(* ================================================================= *)
(** ** The outside world *)

Inductive method : Type := GET | POST.

(** What [requests.get] / [requests.post] send. *)
Record request : Type := mkRequest {
  req_method : method;
  req_url : string;
  req_params : dict string;
  req_data : dict string;
  req_headers : dict string
}.

(** What comes back: the transport fails (requests raises), or a response
    with a status code and a body that may or may not parse as JSON. *)
Inductive reply : Type :=
| NetworkFailure (msg : string)
| Response (status : Z) (body : option json).

(** Text written to standard output. *)
Inductive output : Type :=
| AccessGranted                (* 'ACCESS GRANTED.\nToken expires in 1 hour' *)
| ErrorMessage (err : json).   (* f'ERROR: {response["error"]}' *)

Inductive event : Type :=
| EvTime (now : Q)
| EvHttp (rq : request) (rp : reply)
| EvPrint (o : output).

(** History of interactions, oldest first. *)
Definition history : Type := list event.

(** The environment: the clock reading and the HTTP reply may depend on
    everything that happened so far. *)
Record Env : Type := mkEnv {
  clock : history -> Q;
  http : history -> request -> reply
}.

(* ================================================================= *)
(** ** The object *)

(** Instance attributes; [None] is an attribute not assigned yet. *)
Record SpotifyAPI : Type := mkSpotifyAPI {
  urls : option (dict string);
  client_id : option pyval;
  client_secret : option pyval;
  start : option Q;
  api_headers : option (dict string);
  access_token : option Z
}.

(** The object [object.__new__] hands to [__init__]. *)
Definition new_object : SpotifyAPI :=
  mkSpotifyAPI None None None None None None.

Record State : Type := mkState {
  self : SpotifyAPI;
  log : history
}.

(* ================================================================= *)
(** ** A monad for state and exceptions *)

Definition M (A : Type) : Type := State -> result A * State.

Definition ret {A : Type} (a : A) : M A := fun st => (Ok a, st).

Definition raise {A : Type} (e : exn) : M A := fun st => (Raise e, st).

Definition bind {A B : Type} (m : M A) (k : A -> M B) : M B :=
  fun st =>
    match m st with
    | (Ok a, st') => k a st'
    | (Raise e, st') => (Raise e, st')
    end.

Definition lift {A : Type} (r : result A) : M A := fun st => (r, st).

Declare Scope py_scope.
Delimit Scope py_scope with py.
Notation "x <- m ;; k" := (bind m (fun x => k))
  (at level 61, m at next level, right associativity) : py_scope.
Notation "m ;;; k" := (bind m (fun _ => k))
  (at level 61, right associativity) : py_scope.
Local Open Scope py_scope.

Definition emit (e : event) : M unit :=
  fun st => (Ok tt, mkState (self st) (log st ++ [e])%list).

Definition modify (f : SpotifyAPI -> SpotifyAPI) : M unit :=
  fun st => (Ok tt, mkState (f (self st)) (log st)).

(** [self.<attr>] *)
Definition getattr {A : Type} (name : string)
    (proj : SpotifyAPI -> option A) : M A :=
  fun st =>
    match proj (self st) with
    | Some v => (Ok v, st)
    | None => (Raise (AttributeError name), st)
    end.

Definition set_urls (v : dict string) (o : SpotifyAPI) : SpotifyAPI :=
  mkSpotifyAPI (Some v) (client_id o) (client_secret o) (start o)
               (api_headers o) (access_token o).
Definition set_client_id (v : pyval) (o : SpotifyAPI) : SpotifyAPI :=
  mkSpotifyAPI (urls o) (Some v) (client_secret o) (start o)
               (api_headers o) (access_token o).
Definition set_client_secret (v : pyval) (o : SpotifyAPI) : SpotifyAPI :=
  mkSpotifyAPI (urls o) (client_id o) (Some v) (start o)
               (api_headers o) (access_token o).
Definition set_start (v : Q) (o : SpotifyAPI) : SpotifyAPI :=
  mkSpotifyAPI (urls o) (client_id o) (client_secret o) (Some v)
               (api_headers o) (access_token o).
Definition set_api_headers (v : dict string) (o : SpotifyAPI) : SpotifyAPI :=
  mkSpotifyAPI (urls o) (client_id o) (client_secret o) (start o)
               (Some v) (access_token o).
Definition set_access_token (v : Z) (o : SpotifyAPI) : SpotifyAPI :=
  mkSpotifyAPI (urls o) (client_id o) (client_secret o) (start o)
               (api_headers o) (Some v).

Definition Qltb (x y : Q) : bool :=
  match (x ?= y)%Q with
  | Lt => true
  | _ => false
  end.

(* ================================================================= *)
(** ** The class *)

Section Client.

Variable env : Env.

(** [time()] *)
Definition time : M Q :=
  fun st =>
    let now := clock env (log st) in
    (Ok now, mkState (self st) (log st ++ [EvTime now])%list).

(** [print(...)] *)
Definition print (o : output) : M unit := emit (EvPrint o).

(** [requests.request]: the exchange is recorded; a transport failure is
    raised as an exception. *)
Definition send (rq : request) : M reply :=
  fun st =>
    let rp := http env (log st) rq in
    let st' := mkState (self st) (log st ++ [EvHttp rq rp])%list in
    match rp with
    | NetworkFailure msg => (Raise (RequestException msg), st')
    | Response _ _ => (Ok rp, st')
    end.

(** [requests.post(url=..., data=..., headers=...)] *)
Definition requests_post (url : string) (data headers : dict string)
  : M reply :=
  send (mkRequest POST url [] data headers).

(** [requests.get(url, params=..., headers=...)] *)
Definition requests_get (url : string) (params headers : dict string)
  : M reply :=
  send (mkRequest GET url params [] headers).

(** [r.json()]; the status code plays no part. *)
Definition response_json (r : reply) : M json :=
  match r with
  | Response _ (Some v) => ret v
  | Response _ None => raise JSONDecodeError
  | NetworkFailure msg => raise (RequestException msg)
  end.

Definition default_urls : dict string :=
  [ ("api", "https://api.spotify.com/v1/");
    ("auth", "https://accounts.spotify.com/api/token") ].

(** [SpotifyAPI.__init__(self, client_id, client_secret)] *)
Definition __init__ (cid csec : pyval) : M unit :=
  if negb (is_str cid) && negb (is_str csec) then
    raise (TypeError "Both client_id and client_secret must be strings")
  else
    modify (set_urls default_urls) ;;;
    modify (set_client_id cid) ;;;
    modify (set_client_secret csec) ;;;
    id_ <- getattr "client_id" client_id ;;
    secret_ <- getattr "client_secret" client_secret ;;
    let credentials := py_format id_ ++ ":" ++ py_format secret_ in
    let credentials_b64 := Base64.b64encode credentials in
    us <- getattr "urls" urls ;;
    auth <- lift (dict_getitem us "auth") ;;
    response <- requests_post auth
                  [("grant_type", "client_credentials")]
                  [("Authorization", "Basic " ++ credentials_b64)] ;;
    response <- response_json response ;;
    granted <- lift (py_in "access_token" response) ;;
    if granted then
      now <- time ;;
      modify (set_start now) ;;;
      token <- lift (py_getitem response "access_token") ;;
      bearer <- lift (py_str_add "Bearer " token) ;;
      modify (set_api_headers
                [ ("Accept", "application/json");
                  ("Content-Type", "application/json");
                  ("Authorization", bearer) ]) ;;;
      print AccessGranted
    else
      err <- lift (py_getitem response "error") ;;
      print (ErrorMessage err) ;;;
      modify (set_access_token 0).

(** [SpotifyAPI.update_token(self)] *)
Definition update_token : M unit :=
  now <- time ;;
  started <- getattr "start" start ;;
  let elapsed := ((now - started) / 3600)%Q in
  if Qltb 1 elapsed then
    id_ <- getattr "client_id" client_id ;;
    secret_ <- getattr "client_secret" client_secret ;;
    __init__ id_ secret_
  else
    ret tt.

(** [SpotifyAPI.genres] (a property) *)
Definition genres : M json :=
  update_token ;;;
  us <- getattr "urls" urls ;;
  api <- lift (dict_getitem us "api") ;;
  let url := api ++ "recommendations/available-genre-seeds" in
  headers <- getattr "api_headers" api_headers ;;
  r <- requests_get url [] headers ;;
  response_json r.

(** [SpotifyAPI.search(self, q, t)] *)
Definition search (q t : string) : M json :=
  let params := [("q", q); ("type", t)] in
  us <- getattr "urls" urls ;;
  api <- lift (dict_getitem us "api") ;;
  let url := api ++ "search" in
  headers <- getattr "api_headers" api_headers ;;
  r <- requests_get url params headers ;;
  response_json r.

(** [SpotifyAPI(client_id, client_secret)]: a new object is initialised;
    the caller gets it only if [__init__] returns. *)
Definition construct (cid csec : pyval) (h : history)
  : result SpotifyAPI * history :=
  match __init__ cid csec (mkState new_object h) with
  | (Ok _, st) => (Ok (self st), log st)
  | (Raise e, st) => (Raise e, log st)
  end.

(** *** Pieces of the methods, named for the statements below *)

(** The object once [__init__] has stored its arguments. *)
Definition with_credentials (cid csec : pyval) (o : SpotifyAPI) : SpotifyAPI :=
  set_client_secret csec (set_client_id cid (set_urls default_urls o)).

(** The part of [__init__] after [response.json()]. *)
Definition on_response (response : json) : M unit :=
  (granted <- lift (py_in "access_token" response) ;;
   if granted then
     now <- time ;;
     modify (set_start now) ;;;
     token <- lift (py_getitem response "access_token") ;;
     bearer <- lift (py_str_add "Bearer " token) ;;
     modify (set_api_headers
               [ ("Accept", "application/json");
                 ("Content-Type", "application/json");
                 ("Authorization", bearer) ]) ;;;
     print AccessGranted
   else
     err <- lift (py_getitem response "error") ;;
     print (ErrorMessage err) ;;;
     modify (set_access_token 0))%py.

(** What [genres] and [search] share: look up the API root, read the
    header set, send the GET, parse the body. *)
Definition fetch (path : string) (params : dict string) : M json :=
  (us <- getattr "urls" urls ;;
   api <- lift (dict_getitem us "api") ;;
   headers <- getattr "api_headers" api_headers ;;
   r <- requests_get (api ++ path) params headers ;;
   response_json r)%py.

Inductive call : Type :=
| CallGenres
| CallSearch (q t : string)
| CallUpdateToken.

(** The object and history a call leaves behind, whether it returned or
    raised. *)
Definition perform (c : call) (st : State) : State :=
  match c with
  | CallGenres => snd (genres st)
  | CallSearch q t => snd (search q t st)
  | CallUpdateToken => snd (update_token st)
  end.

Definition perform_all (calls : list call) (st : State) : State :=
  fold_left (fun st c => perform c st) calls st.

End Client.

Local Open Scope list_scope.

(* ================================================================= *)
(** ** Vocabulary for the statements *)

(** The request [__init__] sends for given credentials. *)
Definition auth_request (cid csec : pyval) : request :=
  mkRequest POST "https://accounts.spotify.com/api/token" []
    [("grant_type", "client_credentials")]
    [("Authorization",
      "Basic " ++ Base64.b64encode (py_format cid ++ ":" ++ py_format csec))%string].

(** The header set built for a token. *)
Definition bearer_headers (token : string) : dict string :=
  [ ("Accept", "application/json");
    ("Content-Type", "application/json");
    ("Authorization", ("Bearer " ++ token)%string) ].

Definition genres_request (headers : dict string) : request :=
  mkRequest GET
    "https://api.spotify.com/v1/recommendations/available-genre-seeds"
    [] [] headers.

Definition search_request (q t : string) (headers : dict string) : request :=
  mkRequest GET "https://api.spotify.com/v1/search"
    [("q", q); ("type", t)] [] headers.

(** What the caller of a query gets for a reply. *)
Definition json_result (rp : reply) : result json :=
  match rp with
  | NetworkFailure msg => Raise (RequestException msg)
  | Response _ None => Raise JSONDecodeError
  | Response _ (Some v) => Ok v
  end.

Definition is_method (m : method) (e : event) : bool :=
  match e, m with
  | EvHttp (mkRequest GET _ _ _ _) _, GET => true
  | EvHttp (mkRequest POST _ _ _ _) _, POST => true
  | _, _ => false
  end.

(** Requests of a given method in a history, oldest first. *)
Fixpoint requests_of (m : method) (h : history) : list request :=
  match h with
  | [] => []
  | e :: h' =>
      match e with
      | EvHttp rq _ =>
          if is_method m e then rq :: requests_of m h' else requests_of m h'
      | _ => requests_of m h'
      end
  end.

Definition is_clock (e : event) : bool :=
  match e with
  | EvTime _ => true
  | _ => false
  end.

(** ** Scripted environments (mock servers and a simulated clock) *)

(** The [n]-th clock reading is [nth n times]; the [n]-th POST is answered by
    [nth n auths] and the [n]-th GET by [nth n apis]. *)
Definition scripted (times : list Q) (auths apis : list reply) : Env :=
  mkEnv
    (fun h => nth (List.length (filter is_clock h)) times 0%Q)
    (fun h rq =>
       match req_method rq with
       | POST => nth (List.length (requests_of POST h)) auths
                   (NetworkFailure "unscripted")
       | GET => nth (List.length (requests_of GET h)) apis
                  (NetworkFailure "unscripted")
       end).

Definition granted (token : string) : reply :=
  Response 200 (Some (JObj [("access_token", JStr token);
                            ("token_type", JStr "Bearer");
                            ("expires_in", JInt 3600)])).

Definition invalid_client : reply :=
  Response 400 (Some (JObj [("error", JStr "invalid_client")])).

Definition genres_body : json :=
  JObj [("genres", JArr [JStr "pop"; JStr "rock"])].

(** A history extends another by events that are not HTTP exchanges. *)
Definition quiet_extension (h h' : history) : Prop :=
  exists tail, h' = h ++ tail /\ forall m, requests_of m tail = [].

(** A history extends another, and every POST among the new events is the
    authorization request for the given credentials. *)
Definition renewals_only (cid csec : pyval) (h h' : history) : Prop :=
  exists tail,
    h' = h ++ tail /\
    Forall (eq (auth_request cid csec)) (requests_of POST tail).

(** The object holds a token: URLs, an issue time and a header set. *)
Definition holds_token (o : SpotifyAPI) : Prop :=
  urls o = Some default_urls /\ start o <> None /\ api_headers o <> None.

(** ** Mock runs *)

(** An object holding [token], issued at [issued], for the credentials
    [id] / [secret]. *)
Definition client_at (issued : Q) (token : string) : SpotifyAPI :=
  mkSpotifyAPI (Some default_urls) (Some (PyStr "id")) (Some (PyStr "secret"))
               (Some issued) (Some (bearer_headers token)) None.

(** The history a successful construction leaves. *)
Definition constructed (token : string) (issued : Q) : history :=
  [ EvHttp (auth_request (PyStr "id") (PyStr "secret")) (granted token);
    EvTime issued;
    EvPrint AccessGranted ].

(** The token is granted at time 0; the next clock reading is 4000. *)
Definition late_world : Env :=
  scripted [0%Q; 4000%Q] [granted "tok1"; granted "tok2"]
           [Response 200 (Some genres_body)].

(** The token is granted at time 0; the next clock reading is 10. *)
Definition early_world : Env :=
  scripted [0%Q; 10%Q] [granted "tok1"; granted "tok2"]
           [Response 200 (Some genres_body)].

(** The token is granted at time 0; at time 4000 the renewal is refused. *)
Definition refusing_world : Env :=
  scripted [0%Q; 4000%Q] [granted "tok1"; invalid_client]
           [Response 200 (Some genres_body)].

(** The authorization server refuses the client. *)
Definition closed_world : Env :=
  scripted [0%Q] [invalid_client] [Response 200 (Some genres_body)].

Definition not_found : json :=
  JObj [("error", JObj [("status", JInt 404); ("message", JStr "Not found")])].

(** The API answers the first query with status 404 and a JSON error body. *)
Definition failing_world : Env :=
  scripted [0%Q; 10%Q] [granted "tok1"] [Response 404 (Some not_found)].

Definition ready : State :=
  mkState (client_at 0 "tok1") (constructed "tok1" 0).

(* ================================================================= *)
(** ** The diagnostic methods *)

(** [round(x)] for a float [x]: the nearest integer, a tie going to the
    even one (floats idealised as rationals). *)
Definition py_round (x : Q) : Z :=
  let f := Qfloor x in
  match (x - inject_Z f ?= 1 # 2)%Q with
  | Lt => f
  | Gt => (f + 1)%Z
  | Eq => if Z.even f then f else (f + 1)%Z
  end.

(** The text [__str__] substitutes for the elapsed time. *)
Definition elapsed_text (elapsed : Z) : string :=
  if (60 <? elapsed)%Z then
    let seconds := (elapsed mod 60)%Z in
    let minutes := (elapsed / 60)%Z in
    (py_format (PyInt minutes) ++ " minutes " ++
     py_format (PyInt seconds) ++ " seconds")%string
  else
    (py_format (PyInt elapsed) ++ " seconds")%string.

Definition nl : string := String (ascii_of_nat 10) EmptyString.

(** The argument of the [print] call of [__str__], line by line as the
    triple-quoted f-string has it. *)
Definition summary (class_name elapsed : string) : string :=
  (nl ++ "            Class: " ++ class_name ++ nl ++ nl ++
   "            Time Elapsed: " ++ elapsed ++ nl ++
   "            Available methods:" ++ nl ++
   "                .genres() -  method obtain all genres in Spotify" ++ nl ++
   "                .search() - search for artist" ++ nl ++
   "        ")%string.

Section Diagnostics.

Variable env : Env.

(** [SpotifyAPI.__repr__(self)] *)
Definition __repr__ : M string := ret ""%string.

(** [SpotifyAPI.__str__(self)].  Next to the result and the state, the
    texts the call hands to [print], in order. *)
Definition __str__ (st : State) : result string * State * list string :=
  match (now <- time env ;;
         started <- getattr "start" start ;;
         ret (py_round (now - started)))%py st with
  | (Ok elapsed, st') =>
      (Ok ""%string, st', [summary "SpotifyAPI" (elapsed_text elapsed)])
  | (Raise e, st') => (Raise e, st', [])
  end.

End Diagnostics.

(** ** Well-formed objects *)

(** The header set, if there is one, is the one built for some token, and
    comes with an issue time. *)
Definition token_consistent (o : SpotifyAPI) : Prop :=
  (api_headers o = None \/
   exists token, api_headers o = Some (bearer_headers token)) /\
  (api_headers o <> None -> start o <> None).

Definition consistent (o : SpotifyAPI) : Prop :=
  urls o = Some default_urls /\ token_consistent o.

(** The events of a history that are HTTP exchanges of a given method. *)
Definition count_requests (m : method) (h : history) : nat :=
  List.length (requests_of m h).

(** ** More mock servers *)

(** A reply object with neither [access_token] nor [error]. *)
Definition odd_reply : reply :=
  Response 503 (Some (JObj [("message", JStr "service unavailable")])).

Definition keyless_world : Env := scripted [0%Q] [odd_reply] [].

(** A reply whose [access_token] is a number. *)
Definition numeric_token : reply :=
  Response 200 (Some (JObj [("access_token", JInt 123)])).

(** The token is granted at time 0; the renewal at time 4000 is answered
    with a numeric token; later readings are 4001 and 4100. *)
Definition numeric_world : Env :=
  scripted [0%Q; 4000%Q; 4001%Q; 4100%Q] [granted "tok1"; numeric_token]
           [Response 200 (Some genres_body)].

(** The token is granted at time 0; renewals at 4000 and 5000 are refused. *)
Definition stubborn_world : Env :=
  scripted [0%Q; 4000%Q; 5000%Q]
           [granted "tok1"; invalid_client; invalid_client]
           [Response 200 (Some genres_body)].

(* ================================================================= *)
(** ** Basic facts *)

Example b64_f : Base64.b64encode "f" = "Zg==".
Proof. reflexivity. Qed.
Example b64_fo : Base64.b64encode "fo" = "Zm8=".
Proof. reflexivity. Qed.
Example b64_foo : Base64.b64encode "foo" = "Zm9v".
Proof. reflexivity. Qed.
Example b64_foobar : Base64.b64encode "foobar" = "Zm9vYmFy".
Proof. reflexivity. Qed.
Example b64_creds : Base64.b64encode "id:secret" = "aWQ6c2VjcmV0".
Proof. reflexivity. Qed.
Example py_format_int : py_format (PyInt (-42)) = "-42".
Proof. reflexivity. Qed.

(** ** base64 can be decoded *)

Module Base64Facts.
Import Base64.

Lemma in_all_bytes (a : ascii) : In a all_bytes.
Proof.
  unfold all_bytes. rewrite <- (ascii_nat_embedding a).
  apply in_map, in_seq. split; [apply le_0_n |].
  apply nat_ascii_bounded.
Qed.

Lemma for_all_bytes (p : ascii -> bool) :
  forallb p all_bytes = true -> forall a, p a = true.
Proof.
  intros H a. rewrite forallb_forall in H. apply H, in_all_bytes.
Qed.

Lemma for_all_byte_pairs (p : ascii -> ascii -> bool) :
  forallb (fun a => forallb (p a) all_bytes) all_bytes = true ->
  forall a b, p a b = true.
Proof.
  intros H a b.
  apply (for_all_bytes (p a)). revert a. now apply for_all_bytes.
Qed.

Lemma opt_eqb_eq x n : opt_eqb x n = true -> x = Some n.
Proof. destruct x as [m|]; cbn; [| discriminate]. intro H. apply N.eqb_eq in H. now subst. Qed.

Lemma group_ok1_all : forall a b, group_ok1 a b = true.
Proof. apply for_all_byte_pairs. vm_compute. reflexivity. Qed.
Lemma group_ok2_all : forall a b, group_ok2 a b = true.
Proof. apply for_all_byte_pairs. vm_compute. reflexivity. Qed.


Section Groups.

Variables a b c : ascii.
Let A := N_of_ascii a.
Let B := N_of_ascii b.
Let C := N_of_ascii c.

Lemma value_1 : value_of (char_of (hi6 A)) = Some (hi6 A).
Proof.
  pose proof (group_ok1_all a b) as H. unfold group_ok1 in H.
  rewrite !andb_true_iff in H. now apply opt_eqb_eq.
Qed.

Lemma value_2 : value_of (char_of (lo2_hi4 A B)) = Some (lo2_hi4 A B).
Proof.
  pose proof (group_ok1_all a b) as H. unfold group_ok1 in H.
  rewrite !andb_true_iff in H. now apply opt_eqb_eq.
Qed.

Lemma value_3 : value_of (char_of (lo4_hi2 B C)) = Some (lo4_hi2 B C).
Proof.
  pose proof (group_ok2_all b c) as H. unfold group_ok2 in H.
  rewrite !andb_true_iff in H. now apply opt_eqb_eq.
Qed.

Lemma value_4 : value_of (char_of (lo6 C)) = Some (lo6 C).
Proof.
  pose proof (group_ok2_all b c) as H. unfold group_ok2 in H.
  rewrite !andb_true_iff in H. now apply opt_eqb_eq.
Qed.

Lemma byte1_back : byte1 (hi6 A) (lo2_hi4 A B) = a.
Proof.
  pose proof (group_ok1_all a b) as H. unfold group_ok1 in H.
  rewrite !andb_true_iff in H. now apply Ascii.eqb_eq.
Qed.

Lemma byte2_back : byte2 (lo2_hi4 A B) (lo4_hi2 B C) = b.
Proof.
  pose proof (group_ok1_all a b) as H1. unfold group_ok1 in H1.
  pose proof (group_ok2_all b c) as H2. unfold group_ok2 in H2.
  rewrite !andb_true_iff in H1, H2.
  destruct H1 as [_ Hlow]. destruct H2 as [[_ Hb] _].
  apply N.eqb_eq in Hlow. apply Ascii.eqb_eq in Hb.
  unfold byte2. fold A B C in Hlow, Hb. now rewrite Hlow.
Qed.

Lemma byte3_back : byte3 (lo4_hi2 B C) (lo6 C) = c.
Proof.
  pose proof (group_ok2_all b c) as H. unfold group_ok2 in H.
  rewrite !andb_true_iff in H. now apply Ascii.eqb_eq.
Qed.

End Groups.

Lemma decode_group (a b c : ascii) (s : string) :
  b64decode (b64encode (String a (String b (String c s)))) =
  match b64decode (b64encode s) with
  | Some tail => Some (String a (String b (String c tail)))
  | None => None
  end.
Proof.
  cbn [b64encode b64decode].
  rewrite (value_1 a b), (value_2 a b), (value_3 b c), (value_4 c).
  now rewrite (byte1_back a b), (byte2_back a b c), (byte3_back b c).
Qed.

Lemma decode_one (a : ascii) :
  b64decode (b64encode (String a EmptyString)) = Some (String a EmptyString).
Proof.
  cbn [b64encode b64decode].
  change 0%N with (N_of_ascii zero).
  rewrite (value_1 a zero), (value_2 a zero).
  now rewrite (byte1_back a zero).
Qed.

Lemma decode_two (a b : ascii) :
  b64decode (b64encode (String a (String b EmptyString))) =
  Some (String a (String b EmptyString)).
Proof.
  cbn [b64encode b64decode].
  change 0%N with (N_of_ascii zero).
  rewrite (value_1 a b), (value_2 a b), (value_3 b zero).
  now rewrite (byte1_back a b), (byte2_back a b zero).
Qed.

(** Decoding an encoded string gives the string back. *)
Theorem b64decode_b64encode (s : string) : b64decode (b64encode s) = Some s.
Proof.
  assert (H : b64decode (b64encode s) = Some s /\
              (forall a, b64decode (b64encode (String a s)) =
                         Some (String a s)) /\
              (forall a b, b64decode (b64encode (String a (String b s))) =
                           Some (String a (String b s)))).
  { induction s as [| c s (IH0 & IH1 & IH2)].
    - split; [reflexivity |]. split; [apply decode_one | apply decode_two].
    - split; [apply IH1 |]. split; [intro a; apply IH2 |].
      intros a b. now rewrite decode_group, IH0. }
  apply H.
Qed.

Corollary b64encode_injective (s t : string) :
  b64encode s = b64encode t -> s = t.
Proof.
  intro E. apply (f_equal b64decode) in E.
  rewrite !b64decode_b64encode in E. now injection E.
Qed.

End Base64Facts.

(** The [Authorization] header of the authorization request carries the
    credentials: what follows [Basic ] decodes to [id:secret]. *)
Lemma basic_header_decodes (cid csec : pyval) :
  exists payload,
    dict_lookup "Authorization" (req_headers (auth_request cid csec)) =
      Some ("Basic " ++ payload)%string /\
    Base64.b64decode payload =
      Some (py_format cid ++ ":" ++ py_format csec)%string.
Proof.
  eexists. split; [reflexivity |]. apply Base64Facts.b64decode_b64encode.
Qed.

Lemma Qltb_lt (x y : Q) : Qltb x y = true <-> (x < y)%Q.
Proof.
  unfold Qltb. rewrite Qlt_alt.
  destruct (x ?= y)%Q; split; congruence.
Qed.

(** The test of [update_token], [(now - start) / 3600 > 1], is the test
    "more than 3600 seconds have passed". *)
Lemma hour_elapsed (now started : Q) :
  Qltb 1 ((now - started) / 3600) = true <-> (3600 < now - started)%Q.
Proof.
  rewrite Qltb_lt.
  rewrite <- (Qmult_lt_r 1 ((now - started) / 3600) 3600) by reflexivity.
  assert (E : ((now - started) / 3600 * 3600 == now - started)%Q)
    by (field; discriminate).
  rewrite E. reflexivity.
Qed.

Lemma requests_of_app (m : method) (h1 h2 : history) :
  requests_of m (h1 ++ h2) = requests_of m h1 ++ requests_of m h2.
Proof.
  induction h1 as [| e h1 IH]; simpl; [reflexivity |].
  destruct e; try assumption.
  destruct (is_method m (EvHttp rq rp)); simpl; now rewrite IH.
Qed.

(* ================================================================= *)
(** ** How the methods run *)

Section Behaviour.

Variable env : Env.

Lemma init_rejects (cid csec : pyval) (st : State) :
  is_str cid = false -> is_str csec = false ->
  __init__ env cid csec st =
  (Raise (TypeError "Both client_id and client_secret must be strings"), st).
Proof.
  intros Hid Hsec. unfold __init__. rewrite Hid, Hsec. reflexivity.
Qed.

(** Past the type check, [__init__] stores the credentials, sends the
    authorization request and handles the reply. *)
Lemma init_sends (cid csec : pyval) (st : State) :
  is_str cid || is_str csec = true ->
  let rq := auth_request cid csec in
  let rp := http env (log st) rq in
  let st1 := mkState (with_credentials cid csec (self st))
                     (log st ++ [EvHttp rq rp]) in
  __init__ env cid csec st =
  match rp with
  | NetworkFailure msg => (Raise (RequestException msg), st1)
  | Response _ None => (Raise JSONDecodeError, st1)
  | Response _ (Some v) => on_response env v st1
  end.
Proof.
  intros Hstr rq rp st1.
  assert (Hchk : negb (is_str cid) && negb (is_str csec) = false).
  { destruct (is_str cid), (is_str csec); simpl in *; congruence. }
  unfold __init__. rewrite Hchk.
  subst st1 rp rq.
  unfold bind, modify, getattr, lift, requests_post, send, with_credentials.
  cbn [self log client_id client_secret urls set_urls set_client_id
       set_client_secret default_urls dict_getitem dict_lookup String.eqb
       Ascii.eqb Bool.eqb fst snd].
  unfold auth_request.
  destruct (http env (log st) _) as [msg | status [v |]]; reflexivity.
Qed.

Lemma on_response_granted (kvs : dict json) (tok : string) (st : State) :
  dict_lookup "access_token" kvs = Some (JStr tok) ->
  let now := clock env (log st) in
  on_response env (JObj kvs) st =
  (Ok tt,
   mkState (set_api_headers (bearer_headers tok) (set_start now (self st)))
           (log st ++ [EvTime now; EvPrint AccessGranted])).
Proof.
  intros Htok now.
  unfold on_response, bind, lift, py_in, py_getitem, dict_getitem.
  rewrite Htok.
  unfold time, modify, print, emit, py_str_add, bearer_headers.
  cbn [self log]. rewrite <- app_assoc. reflexivity.
Qed.

Lemma on_response_denied (kvs : dict json) (err : json) (st : State) :
  dict_lookup "access_token" kvs = None ->
  dict_lookup "error" kvs = Some err ->
  on_response env (JObj kvs) st =
  (Ok tt,
   mkState (set_access_token 0 (self st))
           (log st ++ [EvPrint (ErrorMessage err)])).
Proof.
  intros Htok Herr.
  unfold on_response, bind, lift, py_in, py_getitem, dict_getitem.
  rewrite Htok, Herr. reflexivity.
Qed.

Lemma quiet_refl (h : history) : quiet_extension h h.
Proof. exists []. split; [now rewrite app_nil_r | reflexivity]. Qed.

Lemma quiet_time (h : history) (q : Q) : quiet_extension h (h ++ [EvTime q]).
Proof. exists [EvTime q]. split; reflexivity. Qed.

Lemma quiet_print (h : history) (o : output) :
  quiet_extension h (h ++ [EvPrint o]).
Proof. exists [EvPrint o]. split; reflexivity. Qed.

Lemma quiet_trans (h1 h2 h3 : history) :
  quiet_extension h1 h2 -> quiet_extension h2 h3 -> quiet_extension h1 h3.
Proof.
  intros [t1 [E1 Q1]] [t2 [E2 Q2]]. exists (t1 ++ t2). split.
  - now rewrite E2, E1, app_assoc.
  - intro m. now rewrite requests_of_app, Q1, Q2.
Qed.

Lemma quiet_requests (m : method) (h h' : history) :
  quiet_extension h h' -> requests_of m h' = requests_of m h.
Proof.
  intros [t [E Hq]]. now rewrite E, requests_of_app, Hq, app_nil_r.
Qed.

(** Whatever the response, handling it never touches the credentials or
    the URLs and performs no HTTP exchange; unless the response grants a
    token, the issue time and the header set are left as they were. *)
Lemma on_response_frame (v : json) (st : State) :
  let st' := snd (on_response env v st) in
  client_id (self st') = client_id (self st) /\
  client_secret (self st') = client_secret (self st) /\
  urls (self st') = urls (self st) /\
  quiet_extension (log st) (log st') /\
  (py_in "access_token" v <> Ok true ->
   start (self st') = start (self st) /\
   api_headers (self st') = api_headers (self st)) /\
  (api_headers (self st) <> None -> api_headers (self st') <> None).
Proof.
  unfold on_response, bind, lift.
  destruct (py_in "access_token" v) as [[|] | e] eqn:Hin; cbn [fst snd].
  - unfold time, modify. cbn [self log fst snd].
    destruct (py_getitem v "access_token") as [token | e];
      [destruct (py_str_add "Bearer " token) as [bearer | e] |];
      cbn [fst snd self log set_start set_api_headers client_id
           client_secret urls api_headers start print emit];
      repeat split; try congruence;
      try (intro H; now contradiction H);
      eauto using quiet_time, quiet_print, quiet_trans.
  - destruct (py_getitem v "error") as [err | e];
      cbn [fst snd self log print emit modify set_access_token client_id
           client_secret urls api_headers start];
      repeat split; try congruence; auto using quiet_print, quiet_refl.
  - repeat split; try congruence; apply quiet_refl.
Qed.

Lemma quiet_after (h h' : history) (e : event) :
  quiet_extension (h ++ [e]) h' ->
  exists tail, h' = h ++ e :: tail /\ forall m, requests_of m tail = [].
Proof.
  intros [t [E Hq]]. exists t. split; [| exact Hq].
  now rewrite E, <- app_assoc.
Qed.

(** Past the type check, [__init__] always stores its arguments and the
    URLs and performs exactly one HTTP exchange, the authorization request;
    unless the reply grants a token, issue time and headers stay untouched. *)
Lemma init_frame (cid csec : pyval) (st : State) :
  is_str cid || is_str csec = true ->
  let rq := auth_request cid csec in
  let rp := http env (log st) rq in
  let st' := snd (__init__ env cid csec st) in
  client_id (self st') = Some cid /\
  client_secret (self st') = Some csec /\
  urls (self st') = Some default_urls /\
  quiet_extension (log st ++ [EvHttp rq rp]) (log st') /\
  ((forall status v, rp = Response status (Some v) ->
                     py_in "access_token" v <> Ok true) ->
   start (self st') = start (self st) /\
   api_headers (self st') = api_headers (self st)) /\
  (api_headers (self st) <> None -> api_headers (self st') <> None).
Proof.
  intros Hstr rq rp st'. subst st'.
  rewrite (init_sends cid csec st Hstr). fold rq. fold rp.
  destruct rp as [msg | status [v |]] eqn:Hrp; cbn [snd self log].
  - repeat split; auto using quiet_refl.
  - pose proof (on_response_frame v
        (mkState (with_credentials cid csec (self st))
                 (log st ++ [EvHttp rq (Response status (Some v))])))
      as (Hid & Hsec & Hurls & Hq & Hkeep & Hhdr).
    cbn [self log] in Hid, Hsec, Hurls, Hq, Hkeep, Hhdr.
    cbn [self log].
    rewrite Hid, Hsec, Hurls.
    refine (conj _ (conj _ (conj _ (conj Hq (conj _ Hhdr))))); try reflexivity.
    intro Hno. now apply Hkeep, (Hno status v).
  - repeat split; auto using quiet_refl.
Qed.

(** *** [update_token] *)

Lemma update_token_unauthenticated (st : State) :
  start (self st) = None ->
  let now := clock env (log st) in
  update_token env st =
  (Raise (AttributeError "start"), mkState (self st) (log st ++ [EvTime now])).
Proof.
  intros Hs now. unfold update_token, bind, time, getattr.
  cbn [self log]. now rewrite Hs.
Qed.

Lemma update_token_fresh (st : State) (started : Q) :
  start (self st) = Some started ->
  let now := clock env (log st) in
  ~ (3600 < now - started)%Q ->
  update_token env st = (Ok tt, mkState (self st) (log st ++ [EvTime now])).
Proof.
  intros Hs now Hfresh. unfold update_token, bind, time, getattr.
  cbn [self log]. rewrite Hs. fold now.
  destruct (Qltb 1 ((now - started) / 3600)) eqn:Ht; [| reflexivity].
  apply hour_elapsed in Ht. contradiction.
Qed.

Lemma update_token_stale (st : State) (started : Q) (cid csec : pyval) :
  start (self st) = Some started ->
  client_id (self st) = Some cid ->
  client_secret (self st) = Some csec ->
  let now := clock env (log st) in
  (3600 < now - started)%Q ->
  update_token env st =
  __init__ env cid csec (mkState (self st) (log st ++ [EvTime now])).
Proof.
  intros Hs Hid Hsec now Hstale. unfold update_token, bind, time, getattr.
  cbn [self log]. rewrite Hs. fold now.
  apply hour_elapsed in Hstale. rewrite Hstale.
  cbn [self]. rewrite Hid. cbn [self]. now rewrite Hsec.
Qed.

(** *** The queries *)

Lemma search_sends (q t : string) (st : State) (headers : dict string) :
  urls (self st) = Some default_urls ->
  api_headers (self st) = Some headers ->
  let rq := search_request q t headers in
  let rp := http env (log st) rq in
  search env q t st =
  (json_result rp, mkState (self st) (log st ++ [EvHttp rq rp])).
Proof.
  intros Hurls Hhdr rq rp.
  unfold search, bind, getattr, lift. rewrite Hurls.
  cbn [default_urls dict_getitem dict_lookup String.eqb Ascii.eqb Bool.eqb].
  rewrite Hhdr. unfold requests_get, send. cbn [append].
  fold (search_request q t headers). fold rq. fold rp.
  destruct rp as [msg | status [v |]]; reflexivity.
Qed.

(** Once the renewal check is over, [genres] sends its request with the
    header set the object then holds. *)
Lemma genres_sends (st st1 : State) (headers : dict string) :
  update_token env st = (Ok tt, st1) ->
  urls (self st1) = Some default_urls ->
  api_headers (self st1) = Some headers ->
  let rq := genres_request headers in
  let rp := http env (log st1) rq in
  genres env st =
  (json_result rp, mkState (self st1) (log st1 ++ [EvHttp rq rp])).
Proof.
  intros Hup Hurls Hhdr rq rp.
  unfold genres, bind. rewrite Hup.
  unfold getattr, lift. rewrite Hurls.
  cbn [default_urls dict_getitem dict_lookup String.eqb Ascii.eqb Bool.eqb].
  rewrite Hhdr. unfold requests_get, send. cbn [append].
  fold (genres_request headers). fold rq. fold rp.
  destruct rp as [msg | status [v |]]; reflexivity.
Qed.

Lemma genres_renewal_raises (st st1 : State) (e : exn) :
  update_token env st = (Raise e, st1) ->
  genres env st = (Raise e, st1).
Proof. intro Hup. unfold genres, bind. now rewrite Hup. Qed.

(** [update_token] never sends a GET, and sends at most the one POST of
    [__init__]. *)
Lemma init_requests (cid csec : pyval) (st : State) :
  is_str cid || is_str csec = true ->
  let st' := snd (__init__ env cid csec st) in
  requests_of POST (log st') =
    requests_of POST (log st) ++ [auth_request cid csec] /\
  requests_of GET (log st') = requests_of GET (log st).
Proof.
  intros Hstr st'.
  destruct (init_frame cid csec st Hstr) as (_ & _ & _ & Hq & _).
  fold st' in Hq. split.
  - rewrite (quiet_requests POST _ _ Hq), requests_of_app. reflexivity.
  - rewrite (quiet_requests GET _ _ Hq), requests_of_app. cbn.
    now rewrite app_nil_r.
Qed.

Lemma update_token_no_get (st : State) :
  requests_of GET (log (snd (update_token env st))) = requests_of GET (log st).
Proof.
  assert (Htime : forall o q,
    requests_of GET (log (mkState o (log st ++ [EvTime q]))) =
    requests_of GET (log st)).
  { intros o q. cbn [log]. rewrite requests_of_app. cbn. apply app_nil_r. }
  destruct (start (self st)) as [started |] eqn:Hs.
  2: { rewrite (update_token_unauthenticated st Hs). apply Htime. }
  unfold update_token, bind, time, getattr. cbn [self log]. rewrite Hs.
  destruct (Qltb 1 _); [| apply Htime].
  cbn [self].
  destruct (client_id (self st)) as [cid |]; [| apply Htime]. cbn [self].
  destruct (client_secret (self st)) as [csec |]; [| apply Htime].
  destruct (is_str cid || is_str csec) eqn:Hstr.
  - destruct (init_requests cid csec
                (mkState (self st) (log st ++ [EvTime (clock env (log st))]))
                Hstr) as [_ Hget].
    rewrite Hget. apply Htime.
  - apply orb_false_elim in Hstr as [Hid Hsec].
    rewrite (init_rejects cid csec _ Hid Hsec). apply Htime.
Qed.

(** C5. The renewal check reads the clock and compares the time elapsed
    since the issue timestamp with one hour: when more than 3600 seconds
    have passed it runs [__init__] again on the stored credentials (which
    sends one authorization request); otherwise it returns at once, leaving
    the object as it was and sending nothing. *)
Theorem update_token_renews_iff_stale
    (st : State) (started : Q) (cid csec : pyval) :
  start (self st) = Some started ->
  client_id (self st) = Some cid ->
  client_secret (self st) = Some csec ->
  is_str cid || is_str csec = true ->
  let now := clock env (log st) in
  let st1 := mkState (self st) (log st ++ [EvTime now]) in
  ((3600 < now - started)%Q ->
     update_token env st = __init__ env cid csec st1 /\
     requests_of POST (log (snd (update_token env st))) =
       requests_of POST (log st) ++ [auth_request cid csec]) /\
  (~ (3600 < now - started)%Q ->
     update_token env st = (Ok tt, st1) /\
     requests_of POST (log (snd (update_token env st))) =
       requests_of POST (log st)).
Proof.
  intros Hs Hid Hsec Hstr now st1. split; intro Hage.
  - rewrite (update_token_stale st started cid csec Hs Hid Hsec Hage).
    fold now. fold st1. split; [reflexivity |].
    destruct (init_requests cid csec st1 Hstr) as [Hpost _].
    rewrite Hpost. subst st1. cbn [log]. rewrite requests_of_app. cbn.
    now rewrite app_nil_r.
  - rewrite (update_token_fresh st started Hs Hage).
    fold now. fold st1. split; [reflexivity |].
    subst st1. cbn [snd log]. rewrite requests_of_app. cbn.
    now rewrite app_nil_r.
Qed.

(** C6. Constructing with two strings sends one POST to the authorization
    endpoint, with header [Authorization: Basic base64(id:secret)] and form
    field [grant_type=client_credentials]; when the reply is an object with
    a string [access_token], the clock is read and stored as issue time and
    the header set [Accept], [Content-Type], [Authorization: Bearer token]
    is built. *)
Theorem init_authenticates (id secret : string) (st : State) :
  let rq := mkRequest POST "https://accounts.spotify.com/api/token" []
              [("grant_type", "client_credentials")]
              [("Authorization",
                ("Basic " ++ Base64.b64encode (id ++ ":" ++ secret))%string)] in
  let rp := http env (log st) rq in
  let st' := snd (__init__ env (PyStr id) (PyStr secret) st) in
  requests_of POST (log st') = requests_of POST (log st) ++ [rq] /\
  requests_of GET (log st') = requests_of GET (log st) /\
  forall (status : Z) (kvs : dict json) (token : string),
    rp = Response status (Some (JObj kvs)) ->
    dict_lookup "access_token" kvs = Some (JStr token) ->
    let now := clock env (log st ++ [EvHttp rq rp]) in
    __init__ env (PyStr id) (PyStr secret) st =
    (Ok tt,
     mkState
       (mkSpotifyAPI
          (Some default_urls) (Some (PyStr id)) (Some (PyStr secret))
          (Some now)
          (Some [ ("Accept", "application/json");
                  ("Content-Type", "application/json");
                  ("Authorization", ("Bearer " ++ token)%string) ])
          (access_token (self st)))
       (log st ++ [EvHttp rq rp; EvTime now; EvPrint AccessGranted])).
Proof.
  intros rq rp st'.
  destruct (init_requests (PyStr id) (PyStr secret) st eq_refl) as [Hp Hg].
  split; [exact Hp |]. split; [exact Hg |].
  intros status kvs token Hrp Htok now.
  rewrite (init_sends (PyStr id) (PyStr secret) st eq_refl).
  change (auth_request (PyStr id) (PyStr secret)) with rq.
  fold rp. rewrite Hrp.
  rewrite (on_response_granted kvs token _ Htok).
  cbn [self log]. rewrite <- app_assoc. unfold now. rewrite Hrp. reflexivity.
Qed.

(** C8. [search] sends one GET to [https://api.spotify.com/v1/search] with
    parameters [q] and [type] exactly as given (whatever the type string
    is) and the header set the object holds, and hands back the parsed
    body of the reply as it is. *)
Theorem search_passes_through
    (q t : string) (st : State) (headers : dict string) :
  urls (self st) = Some default_urls ->
  api_headers (self st) = Some headers ->
  let rq := mkRequest GET "https://api.spotify.com/v1/search"
              [("q", q); ("type", t)] [] headers in
  let rp := http env (log st) rq in
  search env q t st =
    (json_result rp, mkState (self st) (log st ++ [EvHttp rq rp])) /\
  forall (status : Z) (body : json),
    rp = Response status (Some body) -> fst (search env q t st) = Ok body.
Proof.
  intros Hurls Hhdr rq rp.
  pose proof (search_sends q t st headers Hurls Hhdr) as Hs.
  cbv zeta in Hs.
  change (search_request q t headers) with rq in Hs. fold rp in Hs.
  split; [exact Hs |].
  intros status body Hrp. rewrite Hs. cbn [fst]. now rewrite Hrp.
Qed.

(** The three ways the renewal check can go. *)
Lemma update_token_cases (st : State) :
  let st0 := mkState (self st) (log st ++ [EvTime (clock env (log st))]) in
  (exists e, update_token env st = (Raise e, st0)) \/
  update_token env st = (Ok tt, st0) \/
  (exists cid csec,
      client_id (self st) = Some cid /\
      client_secret (self st) = Some csec /\
      update_token env st = __init__ env cid csec st0).
Proof.
  intro st0. subst st0.
  unfold update_token, bind, time, getattr. cbn [self log].
  destruct (start (self st)) as [started |];
    [| left; eexists; reflexivity].
  destruct (Qltb 1 _); [| right; left; reflexivity].
  cbn [self].
  destruct (client_id (self st)) as [cid |];
    [| left; eexists; reflexivity].
  cbn [self].
  destruct (client_secret (self st)) as [csec |];
    [| left; eexists; reflexivity].
  right; right. exists cid, csec. auto.
Qed.

(** An object that holds URLs and a header set still does after
    [__init__] ran on it again, however that went. *)
Lemma init_keeps_headers (cid csec : pyval) (st : State) :
  urls (self st) = Some default_urls ->
  api_headers (self st) <> None ->
  let st' := snd (__init__ env cid csec st) in
  urls (self st') = Some default_urls /\ api_headers (self st') <> None.
Proof.
  intros Hurls Hhdr st'. subst st'.
  destruct (is_str cid || is_str csec) eqn:Hstr.
  - destruct (init_frame cid csec st Hstr) as (_ & _ & Hu & _ & _ & Hh).
    auto.
  - apply orb_false_elim in Hstr as [Hid Hsec].
    rewrite (init_rejects cid csec st Hid Hsec). auto.
Qed.

Lemma update_token_keeps_headers (st : State) :
  urls (self st) = Some default_urls ->
  api_headers (self st) <> None ->
  let st1 := snd (update_token env st) in
  urls (self st1) = Some default_urls /\ api_headers (self st1) <> None.
Proof.
  intros Hurls Hhdr st1. subst st1.
  destruct (update_token_cases st) as [[e H] | [H | (cid & csec & _ & _ & H)]];
    rewrite H; auto.
  now apply init_keeps_headers.
Qed.

Lemma search_unauthenticated (q t : string) (st : State) :
  urls (self st) = Some default_urls ->
  api_headers (self st) = None ->
  search env q t st = (Raise (AttributeError "api_headers"), st).
Proof.
  intros Hurls Hhdr. unfold search, bind, getattr, lift. rewrite Hurls.
  cbn [default_urls dict_getitem dict_lookup String.eqb Ascii.eqb Bool.eqb].
  now rewrite Hhdr.
Qed.

(** C7. On an object that holds a token, [genres] first runs the renewal
    check; if that raises, the exception is the caller's.  Otherwise one
    GET goes to
    [https://api.spotify.com/v1/recommendations/available-genre-seeds]
    carrying the header set the object holds at that moment, and the parsed
    body of the reply is returned as it is. *)
Theorem genres_passes_through (st : State) :
  holds_token (self st) ->
  match update_token env st with
  | (Raise e, st1) => genres env st = (Raise e, st1)
  | (Ok _, st1) =>
      exists headers,
        api_headers (self st1) = Some headers /\
        let rq := mkRequest GET
          "https://api.spotify.com/v1/recommendations/available-genre-seeds"
          [] [] headers in
        let rp := http env (log st1) rq in
        genres env st =
          (json_result rp, mkState (self st1) (log st1 ++ [EvHttp rq rp])) /\
        forall (status : Z) (body : json),
          rp = Response status (Some body) -> fst (genres env st) = Ok body
  end.
Proof.
  intros (Hurls & _ & Hhdr).
  destruct (update_token_keeps_headers st Hurls Hhdr) as [Hu1 Hh1].
  destruct (update_token env st) as [[[] | e] st1] eqn:Hup; cbn [snd] in *.
  - destruct (api_headers (self st1)) as [headers |] eqn:Hh; [| congruence].
    exists headers. split; [reflexivity |].
    pose proof (genres_sends st st1 headers Hup Hu1 Hh) as Hg.
    cbv zeta in Hg. cbv zeta. split; [exact Hg |].
    intros status body Hrp. rewrite Hg. cbn [fst].
    unfold genres_request. now rewrite Hrp.
  - now apply genres_renewal_raises.
Qed.

(** C3. When the reply to the authorization request grants no token (it is
    no JSON, or a JSON value without [access_token]), the new object has
    neither an issue time nor a header set, and every later query raises
    ([AttributeError], on the missing attribute) before any request is sent:
    [genres] after reading the clock, [search] at once. *)
Theorem failed_authorization_blocks_queries
    (cid csec : pyval) (h : history) :
  is_str cid || is_str csec = true ->
  let rp := http env h (auth_request cid csec) in
  (forall status v, rp = Response status (Some v) ->
                    py_in "access_token" v <> Ok true) ->
  let o := self (snd (__init__ env cid csec (mkState new_object h))) in
  start o = None /\
  api_headers o = None /\
  (forall h' : history,
      genres env (mkState o h') =
      (Raise (AttributeError "start"),
       mkState o (h' ++ [EvTime (clock env h')]))) /\
  (forall (h' : history) (q t : string),
      search env q t (mkState o h') =
      (Raise (AttributeError "api_headers"), mkState o h')).
Proof.
  intros Hstr rp Hdenied o.
  destruct (init_frame cid csec (mkState new_object h) Hstr)
    as (_ & _ & Hurls & _ & Hkeep & _).
  destruct (Hkeep Hdenied) as [Hstart Hhdr].
  fold o in Hurls, Hstart, Hhdr. cbn in Hstart, Hhdr.
  repeat split; try assumption.
  - intro h'. apply genres_renewal_raises.
    now apply (update_token_unauthenticated (mkState o h')).
  - intros h' q t. now apply search_unauthenticated.
Qed.

(** C10. An object holds a token older than one hour, and the renewal is
    answered by an object with an [error] but no [access_token]: [__init__]
    prints the error and returns, the old header set and issue time stay,
    and [genres] goes on to send its GET with the old bearer header; so
    does every later [search]. *)
Theorem failed_renewal_keeps_stale_headers
    (st : State) (started : Q) (cid csec : pyval) (headers : dict string)
    (status : Z) (kvs : dict json) (err : json) :
  start (self st) = Some started ->
  client_id (self st) = Some cid ->
  client_secret (self st) = Some csec ->
  is_str cid || is_str csec = true ->
  api_headers (self st) = Some headers ->
  let now := clock env (log st) in
  (3600 < now - started)%Q ->
  let auth := auth_request cid csec in
  http env (log st ++ [EvTime now]) auth =
    Response status (Some (JObj kvs)) ->
  dict_lookup "access_token" kvs = None ->
  dict_lookup "error" kvs = Some err ->
  let o := set_access_token 0 (with_credentials cid csec (self st)) in
  let h := log st ++ [EvTime now;
                      EvHttp auth (Response status (Some (JObj kvs)));
                      EvPrint (ErrorMessage err)] in
  let rq := genres_request headers in
  api_headers o = Some headers /\
  start o = Some started /\
  genres env st =
    (json_result (http env h rq), mkState o (h ++ [EvHttp rq (http env h rq)])) /\
  forall (h' : history) (q t : string),
    search env q t (mkState o h') =
    (json_result (http env h' (search_request q t headers)),
     mkState o (h' ++ [EvHttp (search_request q t headers)
                              (http env h' (search_request q t headers))])).
Proof.
  intros Hs Hid Hsec Hstr Hhdr now Hstale auth Hreply Hnotok Herr o h rq.
  assert (Ho : api_headers o = Some headers) by exact Hhdr.
  assert (Hu : urls o = Some default_urls) by reflexivity.
  split; [exact Ho |]. split; [exact Hs |]. split.
  - assert (Hup : update_token env st = (Ok tt, mkState o h)).
    { rewrite (update_token_stale st started cid csec Hs Hid Hsec Hstale).
      fold now. rewrite (init_sends cid csec _ Hstr). cbn [self log].
      fold auth. rewrite Hreply.
      rewrite (on_response_denied kvs err _ Hnotok Herr). cbn [self log].
      subst o h. now rewrite <- !app_assoc. }
    exact (genres_sends st (mkState o h) headers Hup Hu Ho).
  - intros h' q t.
    exact (search_sends q t (mkState o h') headers Hu Ho).
Qed.

(** *** Sequences of calls *)

Lemma search_fetch (q t : string) :
  search env q t = fetch env "search" [("q", q); ("type", t)].
Proof. reflexivity. Qed.

Lemma genres_fetch :
  genres env =
  (update_token env ;;; fetch env "recommendations/available-genre-seeds" [])%py.
Proof. reflexivity. Qed.

(** [fetch] never changes the object and adds at most one exchange, a GET. *)
Lemma fetch_frame (path : string) (params : dict string) (st : State) :
  let st' := snd (fetch env path params st) in
  self st' = self st /\
  (log st' = log st \/
   exists rq rp, req_method rq = GET /\ log st' = log st ++ [EvHttp rq rp]).
Proof.
  unfold fetch, bind, getattr, lift.
  destruct (urls (self st)) as [us |]; [| cbn; auto].
  destruct (dict_getitem us "api") as [api | e]; [| cbn; auto].
  destruct (api_headers (self st)) as [headers |]; [| cbn; auto].
  unfold requests_get, send.
  destruct (http env (log st) _) as [msg | status [v |]] eqn:Hrp;
    cbn [snd self log response_json ret raise]; split; try reflexivity;
    right; eexists; eexists; (split; [| reflexivity]); reflexivity.
Qed.

Lemma renewals_refl (cid csec : pyval) (h : history) :
  renewals_only cid csec h h.
Proof. exists []. split; [now rewrite app_nil_r | constructor]. Qed.

Lemma renewals_trans (cid csec : pyval) (h1 h2 h3 : history) :
  renewals_only cid csec h1 h2 -> renewals_only cid csec h2 h3 ->
  renewals_only cid csec h1 h3.
Proof.
  intros [t1 [E1 F1]] [t2 [E2 F2]]. exists (t1 ++ t2). split.
  - now rewrite E2, E1, app_assoc.
  - rewrite requests_of_app. apply Forall_app. auto.
Qed.

Lemma renewals_time (cid csec : pyval) (h : history) (q : Q) :
  renewals_only cid csec h (h ++ [EvTime q]).
Proof. exists [EvTime q]. split; [reflexivity | constructor]. Qed.

Lemma fetch_renewals (cid csec : pyval) (path : string)
    (params : dict string) (st : State) :
  renewals_only cid csec (log st) (log (snd (fetch env path params st))).
Proof.
  destruct (fetch_frame path params st) as [_ [E | (rq & rp & Hm & E)]];
    rewrite E.
  - apply renewals_refl.
  - exists [EvHttp rq rp]. split; [reflexivity |].
    destruct rq as [m u p d hd]. cbn in Hm. subst m. constructor.
Qed.

Lemma init_renewals (cid csec : pyval) (st : State) :
  let st' := snd (__init__ env cid csec st) in
  (is_str cid || is_str csec = false -> st' = st) /\
  (is_str cid || is_str csec = true ->
   client_id (self st') = Some cid /\ client_secret (self st') = Some csec) /\
  renewals_only cid csec (log st) (log st').
Proof.
  intro st'. subst st'.
  destruct (is_str cid || is_str csec) eqn:Hstr.
  - destruct (init_frame cid csec st Hstr) as (Hid & Hsec & _ & Hq & _).
    split; [discriminate |]. split; [auto |].
    apply quiet_after in Hq as (t & E & Hno).
    exists (EvHttp (auth_request cid csec)
                   (http env (log st) (auth_request cid csec)) :: t).
    split; [exact E |].
    cbn. rewrite Hno. repeat constructor.
  - apply orb_false_elim in Hstr as [Hid Hsec].
    rewrite (init_rejects cid csec st Hid Hsec). cbn [snd].
    split; [reflexivity |]. split; [discriminate | apply renewals_refl].
Qed.

(** The credentials survive the renewal check, and a renewal is made
    with them. *)
Lemma update_token_keeps_credentials (cid csec : pyval) (st : State) :
  client_id (self st) = Some cid ->
  client_secret (self st) = Some csec ->
  let st' := snd (update_token env st) in
  client_id (self st') = Some cid /\
  client_secret (self st') = Some csec /\
  renewals_only cid csec (log st) (log st').
Proof.
  intros Hid Hsec st'. subst st'.
  destruct (update_token_cases st)
    as [[e H] | [H | (cid' & csec' & Hid' & Hsec' & H)]];
    rewrite H; cbn [snd self log]; auto using renewals_time.
  assert (cid' = cid) by congruence. assert (csec' = csec) by congruence.
  subst cid' csec'.
  destruct (init_renewals cid csec
              (mkState (self st) (log st ++ [EvTime (clock env (log st))])))
    as (Hrej & Hacc & Hren).
  cbn [log] in Hren.
  split; [| split].
  - destruct (is_str cid || is_str csec) eqn:Hstr.
    + now apply Hacc.
    + now rewrite Hrej.
  - destruct (is_str cid || is_str csec) eqn:Hstr.
    + now apply Hacc.
    + now rewrite Hrej.
  - eapply renewals_trans; [apply renewals_time | exact Hren].
Qed.

Lemma perform_keeps_credentials (cid csec : pyval) (c : call) (st : State) :
  client_id (self st) = Some cid ->
  client_secret (self st) = Some csec ->
  client_id (self (perform env c st)) = Some cid /\
  client_secret (self (perform env c st)) = Some csec /\
  renewals_only cid csec (log st) (log (perform env c st)).
Proof.
  intros Hid Hsec. destruct c as [| q t |]; cbn [perform].
  - rewrite genres_fetch. unfold bind.
    destruct (update_token_keeps_credentials cid csec st Hid Hsec)
      as (Hid1 & Hsec1 & Hren1).
    destruct (update_token env st) as [[[] | e] st1]; cbn [snd] in *; auto.
    destruct (fetch_frame "recommendations/available-genre-seeds" [] st1)
      as [Hself _].
    rewrite Hself. split; [assumption |]. split; [assumption |].
    eapply renewals_trans; [exact Hren1 | apply fetch_renewals].
  - rewrite search_fetch.
    destruct (fetch_frame "search" [("q", q); ("type", t)] st) as [Hself _].
    rewrite Hself. split; [assumption |]. split; [assumption |].
    apply fetch_renewals.
  - now apply update_token_keeps_credentials.
Qed.

Lemma perform_all_keeps_credentials
    (cid csec : pyval) (calls : list call) (st : State) :
  client_id (self st) = Some cid ->
  client_secret (self st) = Some csec ->
  client_id (self (perform_all env calls st)) = Some cid /\
  client_secret (self (perform_all env calls st)) = Some csec /\
  renewals_only cid csec (log st) (log (perform_all env calls st)).
Proof.
  revert st. induction calls as [| c calls IH]; intros st Hid Hsec.
  - cbn. auto using renewals_refl.
  - cbn [perform_all fold_left].
    destruct (perform_keeps_credentials cid csec c st Hid Hsec)
      as (Hid1 & Hsec1 & Hren1).
    destruct (IH (perform env c st) Hid1 Hsec1) as (Hid2 & Hsec2 & Hren2).
    split; [exact Hid2 |]. split; [exact Hsec2 |].
    eapply renewals_trans; eassumption.
Qed.

(** C9. Once the constructor has returned an object, the object stores the
    credentials it was given, and after any sequence of [genres], [search]
    and [update_token] calls (whether they return or raise) it still stores
    exactly those; every authorization request sent meanwhile is the one
    built from them. *)
Theorem credentials_never_change
    (cid csec : pyval) (h0 h1 : history) (o : SpotifyAPI)
    (calls : list call) :
  construct env cid csec h0 = (Ok o, h1) ->
  let st' := perform_all env calls (mkState o h1) in
  client_id o = Some cid /\
  client_secret o = Some csec /\
  client_id (self st') = Some cid /\
  client_secret (self st') = Some csec /\
  exists tail,
    log st' = h1 ++ tail /\
    Forall (eq (auth_request cid csec)) (requests_of POST tail).
Proof.
  intros Hc st'. unfold construct in Hc.
  assert (Ho : client_id o = Some cid /\ client_secret o = Some csec).
  { destruct (init_renewals cid csec (mkState new_object h0))
      as (Hrej & Hacc & _).
    destruct (is_str cid || is_str csec) eqn:Hstr.
    - destruct (__init__ env cid csec (mkState new_object h0))
        as [[[] | e] st1]; [| discriminate].
      injection Hc as <- _. now apply Hacc.
    - apply orb_false_elim in Hstr as [Hid Hsec].
      rewrite (init_rejects cid csec _ Hid Hsec) in Hc. discriminate. }
  destruct Ho as [Hid Hsec].
  split; [exact Hid |]. split; [exact Hsec |].
  exact (perform_all_keeps_credentials cid csec calls (mkState o h1) Hid Hsec).
Qed.

(** *** Renewals and queries *)

Lemma fetch_no_post (path : string) (params : dict string) (st : State) :
  requests_of POST (log (snd (fetch env path params st))) =
  requests_of POST (log st).
Proof.
  destruct (fetch_frame path params st) as [_ [E | (rq & rp & Hm & E)]];
    rewrite E; [reflexivity |].
  rewrite requests_of_app. destruct rq as [m u p d hd]. cbn in Hm. subst m.
  cbn. apply app_nil_r.
Qed.

(** [search] sends no authorization request, whatever the age of the
    token: it does not run the renewal check. *)
Lemma search_no_renewal (q t : string) (st : State) :
  requests_of POST (log (snd (search env q t st))) = requests_of POST (log st).
Proof. rewrite search_fetch. apply fetch_no_post. Qed.

(** [genres] on a token older than one hour sends exactly one authorization
    request, and sends it before anything else. *)
Lemma genres_stale_renews_once
    (st : State) (started : Q) (cid csec : pyval) :
  start (self st) = Some started ->
  client_id (self st) = Some cid ->
  client_secret (self st) = Some csec ->
  is_str cid || is_str csec = true ->
  let now := clock env (log st) in
  (3600 < now - started)%Q ->
  requests_of POST (log (snd (genres env st))) =
    requests_of POST (log st) ++ [auth_request cid csec] /\
  exists tail,
    log (snd (genres env st)) =
    log st ++ EvTime now
           :: EvHttp (auth_request cid csec)
                     (http env (log st ++ [EvTime now]) (auth_request cid csec))
           :: tail.
Proof.
  intros Hs Hid Hsec Hstr now Hstale.
  pose proof (update_token_stale st started cid csec Hs Hid Hsec Hstale) as Hup.
  fold now in Hup.
  set (st0 := mkState (self st) (log st ++ [EvTime now])) in *.
  destruct (init_frame cid csec st0 Hstr) as (_ & _ & _ & Hq & _).
  rewrite <- Hup in Hq. cbn [log st0] in Hq.
  apply quiet_after in Hq as (t1 & E1 & Hno1).
  rewrite <- app_assoc in E1. cbn [app] in E1.
  assert (Hposts : requests_of POST (log (snd (update_token env st))) =
                   requests_of POST (log st) ++ [auth_request cid csec]).
  { rewrite E1, requests_of_app. cbn. now rewrite Hno1. }
  rewrite genres_fetch. unfold bind.
  destruct (update_token env st) as [[[] | e] st1]; cbn [snd] in *.
  - rewrite fetch_no_post. split; [exact Hposts |].
    destruct (fetch_frame "recommendations/available-genre-seeds" [] st1)
      as [_ [E | (rq & rp & _ & E)]]; rewrite E, E1.
    + now exists t1.
    + exists (t1 ++ [EvHttp rq rp]). rewrite <- app_assoc. reflexivity.
  - split; [exact Hposts |]. now exists t1.
Qed.

(** [genres] on a token not older than one hour sends no authorization
    request. *)
Lemma genres_fresh_no_renewal (st : State) (started : Q) :
  start (self st) = Some started ->
  ~ (3600 < clock env (log st) - started)%Q ->
  requests_of POST (log (snd (genres env st))) = requests_of POST (log st).
Proof.
  intros Hs Hfresh. rewrite genres_fetch. unfold bind.
  rewrite (update_token_fresh st started Hs Hfresh).
  rewrite fetch_no_post. cbn [log]. rewrite requests_of_app. cbn.
  apply app_nil_r.
Qed.

(** C4 (as the code has it). A query sends its GET once.  A transport
    failure reaches the caller as the HTTP library's exception.  The status
    code of a response is never looked at: whenever the body parses as
    JSON the caller gets the parsed body as an ordinary result, error
    status or not; a body that does not parse raises the decoder's
    exception.  For [genres] this is about the request that follows a
    renewal check that returned. *)
Theorem query_outcome_follows_reply (st : State) (headers : dict string) :
  urls (self st) = Some default_urls ->
  api_headers (self st) = Some headers ->
  (forall q t : string,
      let rq := search_request q t headers in
      let rp := http env (log st) rq in
      requests_of GET (log (snd (search env q t st))) =
        requests_of GET (log st) ++ [rq] /\
      fst (search env q t st) =
        match rp with
        | NetworkFailure msg => Raise (RequestException msg)
        | Response _ (Some body) => Ok body
        | Response _ None => Raise JSONDecodeError
        end) /\
  (forall st0 : State,
      update_token env st0 = (Ok tt, st) ->
      let rq := genres_request headers in
      let rp := http env (log st) rq in
      requests_of GET (log (snd (genres env st0))) =
        requests_of GET (log st0) ++ [rq] /\
      fst (genres env st0) =
        match rp with
        | NetworkFailure msg => Raise (RequestException msg)
        | Response _ (Some body) => Ok body
        | Response _ None => Raise JSONDecodeError
        end).
Proof.
  intros Hurls Hhdr. split.
  - intros q t rq rp.
    rewrite (search_sends q t st headers Hurls Hhdr). fold rq. fold rp.
    cbn [fst snd log]. split.
    + rewrite requests_of_app. reflexivity.
    + destruct rp as [msg | status [body |]]; reflexivity.
  - intros st0 Hup rq rp.
    rewrite (genres_sends st0 st headers Hup Hurls Hhdr). fold rq. fold rp.
    cbn [fst snd log]. split.
    + rewrite requests_of_app.
      pose proof (update_token_no_get st0) as Hng. rewrite Hup in Hng.
      cbn [snd] in Hng. rewrite Hng. reflexivity.
    + destruct rp as [msg | status [body |]]; reflexivity.
Qed.

End Behaviour.

(* ================================================================= *)
(** ** Runs against mock servers *)

Example construct_granted :
  construct late_world (PyStr "id") (PyStr "secret") [] =
  (Ok (client_at 0 "tok1"), constructed "tok1" 0).
Proof. reflexivity. Qed.

Example construct_refused :
  construct closed_world (PyStr "id") (PyStr "secret") [] =
  (Ok (mkSpotifyAPI (Some default_urls) (Some (PyStr "id"))
                    (Some (PyStr "secret")) None None (Some 0%Z)),
   [ EvHttp (auth_request (PyStr "id") (PyStr "secret")) invalid_client;
     EvPrint (ErrorMessage (JStr "invalid_client")) ]).
Proof. reflexivity. Qed.

Example construct_two_non_strings :
  construct late_world PyNone (PyInt 7) [] =
  (Raise (TypeError "Both client_id and client_secret must be strings"), []).
Proof. reflexivity. Qed.

Example genres_unchanged :
  fst (genres early_world (mkState (client_at 0 "tok1") (constructed "tok1" 0)))
  = Ok (JObj [("genres", JArr [JStr "pop"; JStr "rock"])]).
Proof. reflexivity. Qed.

(** C1. [search] does not run the renewal check.  With a token issued at
    time 0 and the clock at 4000, [search] sends its GET with the old
    bearer header and no authorization request at all, where [genres] in
    the same situation renews first.  (In any state, [search] sends no
    POST: [search_no_renewal].) *)
Theorem search_skips_renewal_of_stale_token :
  let o := client_at 0 "tok1" in
  let h := constructed "tok1" 0 in
  let rq := search_request "Post Malone" "artist" (bearer_headers "tok1") in
  construct late_world (PyStr "id") (PyStr "secret") [] = (Ok o, h) /\
  start o = Some 0%Q /\
  clock late_world h = 4000%Q /\
  search late_world "Post Malone" "artist" (mkState o h) =
    (Ok genres_body,
     mkState o (h ++ [EvHttp rq (Response 200 (Some genres_body))])) /\
  requests_of POST
    (log (snd (search late_world "Post Malone" "artist" (mkState o h)))) =
    requests_of POST h /\
  requests_of POST (log (snd (genres late_world (mkState o h)))) =
    requests_of POST h ++ [auth_request (PyStr "id") (PyStr "secret")].
Proof. repeat split. Qed.

(** C2. The type check of [__init__] rejects only the case where both
    arguments are not strings.  With one of them [None] the constructor
    goes on, formats it as the text [None] and sends the authorization
    request; this holds in every environment. *)
Theorem init_accepts_one_non_string :
  construct late_world PyNone (PyStr "secret") [] =
    (Ok (mkSpotifyAPI (Some default_urls) (Some PyNone)
                      (Some (PyStr "secret")) (Some 0%Q)
                      (Some (bearer_headers "tok1")) None),
     [ EvHttp (mkRequest POST "https://accounts.spotify.com/api/token" []
                         [("grant_type", "client_credentials")]
                         [("Authorization", "Basic Tm9uZTpzZWNyZXQ=")])
              (granted "tok1");
       EvTime 0;
       EvPrint AccessGranted ]) /\
  construct late_world (PyStr "id") PyNone [] =
    (Ok (mkSpotifyAPI (Some default_urls) (Some (PyStr "id"))
                      (Some PyNone) (Some 0%Q)
                      (Some (bearer_headers "tok1")) None),
     [ EvHttp (mkRequest POST "https://accounts.spotify.com/api/token" []
                         [("grant_type", "client_credentials")]
                         [("Authorization", "Basic aWQ6Tm9uZQ==")])
              (granted "tok1");
       EvTime 0;
       EvPrint AccessGranted ]) /\
  forall (env : Env) (secret : string) (st : State),
    requests_of POST (log (snd (__init__ env PyNone (PyStr secret) st))) =
    requests_of POST (log st) ++ [auth_request PyNone (PyStr secret)].
Proof.
  split; [reflexivity |]. split; [reflexivity |].
  intros env secret st.
  exact (proj1 (init_requests env PyNone (PyStr secret) st eq_refl)).
Qed.

(** C4 (as stated) fails: a reply with an error status and a JSON body is
    not raised by [search]. *)
Lemma error_status_is_not_raised :
  ~ (forall (env : Env) (st : State) (q t : string) (headers : dict string)
            (status : Z) (body : option json),
        urls (self st) = Some default_urls ->
        api_headers (self st) = Some headers ->
        http env (log st) (search_request q t headers) =
          Response status body ->
        (status < 200 \/ 299 < status)%Z ->
        exists e, fst (search env q t st) = Raise e).
Proof.
  intro H.
  destruct (H failing_world
              (mkState (client_at 0 "tok1") (constructed "tok1" 0))
              "Post Malone" "artist" (bearer_headers "tok1")
              404%Z (Some not_found)
              eq_refl eq_refl eq_refl (or_intror eq_refl)) as [e He].
  discriminate He.
Qed.

Example error_status_search :
  fst (search failing_world "Post Malone" "artist"
         (mkState (client_at 0 "tok1") (constructed "tok1" 0))) = Ok not_found.
Proof. reflexivity. Qed.

Example error_status_genres :
  fst (genres failing_world
         (mkState (client_at 0 "tok1") (constructed "tok1" 0))) = Ok not_found.
Proof. reflexivity. Qed.

(* ================================================================= *)
(** ** The theorems at work on the mock runs *)

Lemma failed_authorization_blocks_queries_witness :
  let auth := auth_request (PyStr "id") (PyStr "secret") in
  let o := self (snd (__init__ closed_world (PyStr "id") (PyStr "secret")
                        (mkState new_object []))) in
  is_str (PyStr "id") || is_str (PyStr "secret") = true /\
  (forall status v,
      http closed_world [] auth = Response status (Some v) ->
      py_in "access_token" v <> Ok true) /\
  start o = None /\
  api_headers o = None /\
  (forall h' : history,
      genres closed_world (mkState o h') =
      (Raise (AttributeError "start"),
       mkState o (h' ++ [EvTime (clock closed_world h')]))) /\
  (forall (h' : history) (q t : string),
      search closed_world q t (mkState o h') =
      (Raise (AttributeError "api_headers"), mkState o h')).
Proof.
  intros auth o.
  assert (Hdenied : forall status v,
             http closed_world [] auth = Response status (Some v) ->
             py_in "access_token" v <> Ok true).
  { intros status v E.
    change (invalid_client = Response status (Some v)) in E.
    injection E as _ <-. discriminate. }
  split; [reflexivity |]. split; [exact Hdenied |].
  exact (failed_authorization_blocks_queries closed_world
           (PyStr "id") (PyStr "secret") [] eq_refl Hdenied).
Defined.

Lemma update_token_renews_iff_stale_witness :
  (3600 < clock late_world (log ready) - 0)%Q /\
  update_token late_world ready =
    __init__ late_world (PyStr "id") (PyStr "secret")
      (mkState (self ready) (log ready ++ [EvTime 4000])) /\
  requests_of POST (log (snd (update_token late_world ready))) =
    requests_of POST (log ready) ++
    [auth_request (PyStr "id") (PyStr "secret")] /\
  ~ (3600 < clock early_world (log ready) - 0)%Q /\
  update_token early_world ready =
    (Ok tt, mkState (self ready) (log ready ++ [EvTime 10])) /\
  requests_of POST (log (snd (update_token early_world ready))) =
    requests_of POST (log ready).
Proof.
  assert (Hlate : (3600 < clock late_world (log ready) - 0)%Q)
    by reflexivity.
  assert (Hearly : ~ (3600 < clock early_world (log ready) - 0)%Q)
    by (intro H; discriminate H).
  split; [exact Hlate |].
  split; [| split; [| split; [exact Hearly | split]]].
  - exact (proj1 (proj1 (update_token_renews_iff_stale late_world ready 0
                           (PyStr "id") (PyStr "secret")
                           eq_refl eq_refl eq_refl eq_refl) Hlate)).
  - exact (proj2 (proj1 (update_token_renews_iff_stale late_world ready 0
                           (PyStr "id") (PyStr "secret")
                           eq_refl eq_refl eq_refl eq_refl) Hlate)).
  - exact (proj1 (proj2 (update_token_renews_iff_stale early_world ready 0
                           (PyStr "id") (PyStr "secret")
                           eq_refl eq_refl eq_refl eq_refl) Hearly)).
  - exact (proj2 (proj2 (update_token_renews_iff_stale early_world ready 0
                           (PyStr "id") (PyStr "secret")
                           eq_refl eq_refl eq_refl eq_refl) Hearly)).
Defined.

Lemma init_authenticates_witness :
  let kvs := [("access_token", JStr "tok1"); ("token_type", JStr "Bearer");
              ("expires_in", JInt 3600)] in
  http late_world [] (auth_request (PyStr "id") (PyStr "secret")) =
    Response 200 (Some (JObj kvs)) /\
  dict_lookup "access_token" kvs = Some (JStr "tok1") /\
  __init__ late_world (PyStr "id") (PyStr "secret") (mkState new_object []) =
    (Ok tt, ready).
Proof.
  intro kvs. split; [reflexivity |]. split; [reflexivity |].
  exact (proj2 (proj2 (init_authenticates late_world "id" "secret"
                         (mkState new_object [])))
           200%Z kvs "tok1" eq_refl eq_refl).
Defined.

Lemma genres_passes_through_witness :
  holds_token (self ready) /\
  exists headers,
    api_headers (self ready) = Some headers /\
    let rq := genres_request headers in
    let h := log ready ++ [EvTime 10] in
    let rp := http early_world h rq in
    genres early_world ready =
      (json_result rp, mkState (self ready) (h ++ [EvHttp rq rp])) /\
    forall (status : Z) (body : json),
      rp = Response status (Some body) ->
      fst (genres early_world ready) = Ok body.
Proof.
  assert (Hh : holds_token (self ready)).
  { split; [reflexivity |]. split; discriminate. }
  split; [exact Hh |].
  exact (genres_passes_through early_world ready Hh).
Defined.

Lemma search_passes_through_witness :
  let rq := search_request "Post Malone" "not-a-type" (bearer_headers "tok1") in
  urls (self ready) = Some default_urls /\
  api_headers (self ready) = Some (bearer_headers "tok1") /\
  search early_world "Post Malone" "not-a-type" ready =
    (Ok genres_body,
     mkState (self ready)
             (log ready ++ [EvHttp rq (Response 200 (Some genres_body))])).
Proof.
  intro rq. split; [reflexivity |]. split; [reflexivity |].
  exact (proj1 (search_passes_through early_world "Post Malone" "not-a-type"
                  ready (bearer_headers "tok1") eq_refl eq_refl)).
Defined.

Lemma credentials_never_change_witness :
  let calls := [CallGenres; CallSearch "Post Malone" "artist";
                CallUpdateToken; CallGenres] in
  construct late_world (PyStr "id") (PyStr "secret") [] =
    (Ok (self ready), log ready) /\
  client_id (self (perform_all late_world calls ready)) = Some (PyStr "id") /\
  client_secret (self (perform_all late_world calls ready)) =
    Some (PyStr "secret").
Proof.
  intro calls. split; [reflexivity |].
  destruct (credentials_never_change late_world (PyStr "id") (PyStr "secret")
              [] (log ready) (self ready) calls eq_refl)
    as (_ & _ & Hid & Hsec & _).
  split; [exact Hid | exact Hsec].
Defined.

Lemma failed_renewal_keeps_stale_headers_witness :
  let auth := auth_request (PyStr "id") (PyStr "secret") in
  let h := log ready ++ [EvTime 4000; EvHttp auth invalid_client;
                         EvPrint (ErrorMessage (JStr "invalid_client"))] in
  let o := set_access_token 0
             (with_credentials (PyStr "id") (PyStr "secret") (self ready)) in
  let rq := genres_request (bearer_headers "tok1") in
  (3600 < clock refusing_world (log ready) - 0)%Q /\
  http refusing_world (log ready ++ [EvTime 4000]) auth = invalid_client /\
  genres refusing_world ready =
    (Ok genres_body,
     mkState o (h ++ [EvHttp rq (Response 200 (Some genres_body))])).
Proof.
  intros auth h o rq.
  assert (Hstale : (3600 < clock refusing_world (log ready) - 0)%Q)
    by reflexivity.
  split; [exact Hstale |]. split; [reflexivity |].
  exact (proj1 (proj2 (proj2
           (failed_renewal_keeps_stale_headers refusing_world ready 0
              (PyStr "id") (PyStr "secret") (bearer_headers "tok1")
              400%Z [("error", JStr "invalid_client")] (JStr "invalid_client")
              eq_refl eq_refl eq_refl eq_refl eq_refl Hstale
              eq_refl eq_refl eq_refl)))).
Defined.

Lemma query_outcome_follows_reply_witness :
  urls (self ready) = Some default_urls /\
  api_headers (self ready) = Some (bearer_headers "tok1") /\
  http failing_world (log ready)
       (search_request "Post Malone" "artist" (bearer_headers "tok1")) =
    Response 404 (Some not_found) /\
  fst (search failing_world "Post Malone" "artist" ready) = Ok not_found /\
  requests_of GET
    (log (snd (search failing_world "Post Malone" "artist" ready))) =
    [search_request "Post Malone" "artist" (bearer_headers "tok1")].
Proof.
  split; [reflexivity |]. split; [reflexivity |]. split; [reflexivity |].
  destruct (proj1 (query_outcome_follows_reply failing_world ready
                     (bearer_headers "tok1") eq_refl eq_refl)
              "Post Malone" "artist") as [Hget Hres].
  split; [exact Hres | exact Hget].
Defined.

(* ================================================================= *)
(** ** Further properties of the methods *)

Section More.

Variable env : Env.

(** *** How [__init__] can end *)

(** When the membership test on the reply succeeds, the clock is read and
    stored before the token is looked at: either the token is a string and
    the header set is built, or a [TypeError] is raised with the new issue
    time already in place. *)
Lemma on_response_member (v : json) (st : State) :
  py_in "access_token" v = Ok true ->
  let now := clock env (log st) in
  (exists token,
      py_getitem v "access_token" = Ok (JStr token) /\
      on_response env v st =
      (Ok tt,
       mkState (set_api_headers (bearer_headers token)
                  (set_start now (self st)))
               (log st ++ [EvTime now; EvPrint AccessGranted]))) \/
  ((forall token, py_getitem v "access_token" <> Ok (JStr token)) /\
   exists msg,
     on_response env v st =
     (Raise (TypeError msg),
      mkState (set_start now (self st)) (log st ++ [EvTime now]))).
Proof.
  intros Hin now.
  unfold on_response, bind, lift. rewrite Hin.
  unfold time, modify. cbn [self log]. fold now.
  destruct v as [| b | z | q | s | l | kvs]; try discriminate Hin;
    cbn [py_getitem].
  - right. split; [discriminate | eexists; reflexivity].
  - right. split; [discriminate | eexists; reflexivity].
  - unfold dict_getitem.
    cbn [py_in] in Hin.
    destruct (dict_lookup "access_token" kvs) as [tok |]; [| discriminate Hin].
    destruct tok as [| b | z | q | s | l | kvs'];
      try (right; split; [discriminate | eexists; reflexivity]).
    left. exists s. split; [reflexivity |].
    unfold print, emit. cbn [self log]. rewrite <- app_assoc. reflexivity.
Qed.

(** When the membership test fails or raises, nothing is stored except,
    after a printed error, the sentinel [access_token = 0]. *)
Lemma on_response_no_member (v : json) (st : State) :
  py_in "access_token" v <> Ok true ->
  (exists err,
      on_response env v st =
      (Ok tt,
       mkState (set_access_token 0 (self st))
               (log st ++ [EvPrint (ErrorMessage err)]))) \/
  (exists e, on_response env v st = (Raise e, st)).
Proof.
  intro Hin. unfold on_response, bind, lift.
  destruct (py_in "access_token" v) as [[|] | e]; [congruence | |].
  - destruct (py_getitem v "error") as [err | e].
    + left. exists err. reflexivity.
    + right. exists e. reflexivity.
  - right. exists e. reflexivity.
Qed.

Lemma app_cons_neq {A : Type} (l t : list A) (x : A) : l <> l ++ x :: t.
Proof.
  intro E. apply (f_equal (@List.length A)) in E.
  rewrite length_app in E. cbn in E. lia.
Qed.

(** X1. [__init__] refuses its arguments, raising the [TypeError] with the
    object and the world untouched, exactly when neither argument is a
    string. *)
Theorem init_refuses_iff_no_string (cid csec : pyval) (st : State) :
  __init__ env cid csec st =
    (Raise (TypeError "Both client_id and client_secret must be strings"), st)
  <-> (is_str cid = false /\ is_str csec = false).
Proof.
  split.
  - intro E.
    destruct (is_str cid || is_str csec) eqn:Hstr.
    + exfalso.
      destruct (init_frame env cid csec st Hstr) as (_ & _ & _ & Hq & _).
      rewrite E in Hq. cbn [snd] in Hq.
      apply quiet_after in Hq as (t & Ht & _).
      exact (app_cons_neq _ _ _ Ht).
    + now apply orb_false_elim in Hstr.
  - intros [Hid Hsec]. now apply init_rejects.
Qed.

(** X2. A reply object with neither [access_token] nor [error] makes
    [__init__] raise [KeyError('error')]: the credentials and URLs are
    stored, the one request was sent, nothing is printed and no token state
    is touched. *)
Theorem init_reply_without_error_key
    (cid csec : pyval) (st : State) (status : Z) (kvs : dict json) :
  is_str cid || is_str csec = true ->
  let rq := auth_request cid csec in
  http env (log st) rq = Response status (Some (JObj kvs)) ->
  dict_lookup "access_token" kvs = None ->
  dict_lookup "error" kvs = None ->
  __init__ env cid csec st =
  (Raise (KeyError "error"),
   mkState (with_credentials cid csec (self st))
           (log st ++ [EvHttp rq (Response status (Some (JObj kvs)))])).
Proof.
  intros Hstr rq Hrp Hnotok Hnoerr.
  rewrite (init_sends env cid csec st Hstr). fold rq. rewrite Hrp.
  unfold on_response, bind, lift, py_in, py_getitem, dict_getitem.
  now rewrite Hnotok, Hnoerr.
Qed.

(** X3. When the reply passes the membership test but holds no string
    token (the token is a number or [null], or the reply is a list or a
    string that contains [access_token]), [__init__] raises a [TypeError]
    after it has overwritten the issue time: the header set stays as it
    was. *)
Theorem init_unusable_token
    (cid csec : pyval) (st : State) (status : Z) (v : json) :
  is_str cid || is_str csec = true ->
  let rq := auth_request cid csec in
  let rp := Response status (Some v) in
  http env (log st) rq = rp ->
  py_in "access_token" v = Ok true ->
  (forall token, py_getitem v "access_token" <> Ok (JStr token)) ->
  let now := clock env (log st ++ [EvHttp rq rp]) in
  exists msg,
    __init__ env cid csec st =
    (Raise (TypeError msg),
     mkState (set_start now (with_credentials cid csec (self st)))
             (log st ++ [EvHttp rq rp; EvTime now])) /\
    api_headers (set_start now (with_credentials cid csec (self st))) =
      api_headers (self st).
Proof.
  intros Hstr rq rp Hrp Hin Hbad now.
  rewrite (init_sends env cid csec st Hstr). fold rq. rewrite Hrp.
  unfold rp at 1.
  destruct (on_response_member v
              (mkState (with_credentials cid csec (self st))
                       (log st ++ [EvHttp rq rp])) Hin)
    as [(token & Htok & _) | (_ & msg & E)].
  - now contradiction (Hbad token).
  - exists msg. cbn [self log] in E. fold now in E.
    rewrite <- app_assoc in E. split; [exact E | reflexivity].
Qed.

(** *** Renewals that do not grant a token *)

Lemma update_token_without_grant (st : State) (cid csec : pyval) :
  client_id (self st) = Some cid ->
  client_secret (self st) = Some csec ->
  (forall status v,
      http env (log st ++ [EvTime (clock env (log st))])
           (auth_request cid csec) = Response status (Some v) ->
      py_in "access_token" v <> Ok true) ->
  let st' := snd (update_token env st) in
  start (self st') = start (self st) /\
  api_headers (self st') = api_headers (self st).
Proof.
  intros Hid Hsec Hno st'. subst st'.
  destruct (update_token_cases env st)
    as [[e H] | [H | (cid' & csec' & Hid' & Hsec' & H)]];
    rewrite H; cbn [snd self]; auto.
  assert (cid' = cid) by congruence. assert (csec' = csec) by congruence.
  subst cid' csec'.
  destruct (is_str cid || is_str csec) eqn:Hstr.
  - destruct (init_frame env cid csec
                (mkState (self st) (log st ++ [EvTime (clock env (log st))]))
                Hstr) as (_ & _ & _ & _ & Hkeep & _).
    cbn [self log] in Hkeep. now apply Hkeep.
  - apply orb_false_elim in Hstr as [Hi Hs].
    rewrite (init_rejects env cid csec _ Hi Hs). auto.
Qed.

(** X4. Whatever way a renewal fails to grant a token (the transport
    fails, the body is no JSON, the reply is an error object, or an object
    with neither key), [genres] leaves the issue time and the header set
    exactly as they were. *)
Theorem renewal_without_grant_keeps_token (st : State) (cid csec : pyval) :
  client_id (self st) = Some cid ->
  client_secret (self st) = Some csec ->
  (forall status v,
      http env (log st ++ [EvTime (clock env (log st))])
           (auth_request cid csec) = Response status (Some v) ->
      py_in "access_token" v <> Ok true) ->
  let st' := snd (genres env st) in
  start (self st') = start (self st) /\
  api_headers (self st') = api_headers (self st).
Proof.
  intros Hid Hsec Hno st'. subst st'.
  pose proof (update_token_without_grant st cid csec Hid Hsec Hno) as Hup.
  cbv zeta in Hup.
  rewrite genres_fetch. unfold bind.
  destruct (update_token env st) as [[[] | e] st1]; cbn [snd] in *;
    [| exact Hup].
  destruct (fetch_frame env "recommendations/available-genre-seeds" [] st1)
    as [Hself _].
  now rewrite Hself.
Qed.

(** X5. A renewal that grants no token is tried again by every later
    [genres] call: the issue time was not moved, so as long as the clock
    does not run backwards each call sends the authorization request
    again. *)
Theorem failed_renewal_is_retried
    (st : State) (started : Q) (cid csec : pyval) :
  start (self st) = Some started ->
  client_id (self st) = Some cid ->
  client_secret (self st) = Some csec ->
  is_str cid || is_str csec = true ->
  let now := clock env (log st) in
  (3600 < now - started)%Q ->
  (forall status v,
      http env (log st ++ [EvTime now]) (auth_request cid csec) =
        Response status (Some v) ->
      py_in "access_token" v <> Ok true) ->
  forall h' : history,
    (now <= clock env h')%Q ->
    requests_of POST
      (log (snd (genres env (mkState (self (snd (genres env st))) h')))) =
    requests_of POST h' ++ [auth_request cid csec].
Proof.
  intros Hs Hid Hsec Hstr now Hstale Hno h' Hlater.
  assert (Hs' : start (self (snd (genres env st))) = start (self st)).
  { pose proof (update_token_without_grant st cid csec Hid Hsec Hno) as Hup.
    cbv zeta in Hup. rewrite genres_fetch. unfold bind.
    destruct (update_token env st) as [[[] | e] st1]; cbn [snd] in *;
      [| apply Hup].
    destruct (fetch_frame env "recommendations/available-genre-seeds" [] st1)
      as [Hself _].
    rewrite Hself. apply Hup. }
  destruct (perform_keeps_credentials env cid csec CallGenres st Hid Hsec)
    as (Hid' & Hsec' & _).
  cbn [perform] in Hid', Hsec'.
  set (o := self (snd (genres env st))) in *.
  assert (Hs2 : start (self (mkState o h')) = Some started)
    by (cbn [self]; congruence).
  assert (Hstale' : (3600 < clock env (log (mkState o h')) - started)%Q).
  { cbn [log]. lra. }
  exact (proj1 (genres_stale_renews_once env (mkState o h') started cid csec
                  Hs2 Hid' Hsec' Hstr Hstale')).
Qed.

(** X6. [genres] on a token older than one hour, when the renewal is
    granted: the trace is clock reading, authorization request, clock
    reading, message, and then the GET, which already carries the new
    bearer header; the new issue time is the second reading, and every
    later [genres] call within 3600 seconds of it sends no authorization
    request. *)
Theorem granted_renewal_serves_the_query
    (st : State) (started : Q) (cid csec : pyval)
    (status : Z) (kvs : dict json) (token : string) :
  start (self st) = Some started ->
  client_id (self st) = Some cid ->
  client_secret (self st) = Some csec ->
  is_str cid || is_str csec = true ->
  let now := clock env (log st) in
  (3600 < now - started)%Q ->
  let auth := auth_request cid csec in
  let rp := Response status (Some (JObj kvs)) in
  http env (log st ++ [EvTime now]) auth = rp ->
  dict_lookup "access_token" kvs = Some (JStr token) ->
  let issued := clock env (log st ++ [EvTime now; EvHttp auth rp]) in
  let o := set_api_headers (bearer_headers token)
             (set_start issued (with_credentials cid csec (self st))) in
  let h := log st ++ [EvTime now; EvHttp auth rp; EvTime issued;
                      EvPrint AccessGranted] in
  let rq := genres_request (bearer_headers token) in
  genres env st =
    (json_result (http env h rq),
     mkState o (h ++ [EvHttp rq (http env h rq)])) /\
  forall h' : history,
    ~ (3600 < clock env h' - issued)%Q ->
    requests_of POST (log (snd (genres env (mkState o h')))) =
    requests_of POST h'.
Proof.
  intros Hs Hid Hsec Hstr now Hstale auth rp Hrp Htok issued o h rq.
  split.
  - assert (Hup : update_token env st = (Ok tt, mkState o h)).
    { rewrite (update_token_stale env st started cid csec Hs Hid Hsec Hstale).
      fold now. rewrite (init_sends env cid csec _ Hstr). cbn [self log].
      fold auth. rewrite Hrp. unfold rp at 1.
      rewrite (on_response_granted env kvs token _ Htok). cbn [self log].
      subst o h issued. now rewrite <- !app_assoc. }
    exact (genres_sends env st (mkState o h) (bearer_headers token)
             Hup eq_refl eq_refl).
  - intros h' Hfresh.
    exact (genres_fresh_no_renewal env (mkState o h') issued eq_refl Hfresh).
Qed.

(** *** What a call can send *)

Lemma update_token_budget (st : State) :
  exists renewal,
    log (snd (update_token env st)) = log st ++ renewal /\
    requests_of GET renewal = [] /\
    (count_requests POST renewal <= 1)%nat.
Proof.
  set (now := clock env (log st)).
  assert (Hquiet : forall o,
    exists renewal,
      log (mkState o (log st ++ [EvTime now])) = log st ++ renewal /\
      requests_of GET renewal = [] /\
      (count_requests POST renewal <= 1)%nat).
  { intro o. exists [EvTime now]. cbn. auto. }
  destruct (update_token_cases env st)
    as [[e H] | [H | (cid & csec & _ & _ & H)]];
    rewrite H; cbn [snd]; try apply Hquiet.
  fold now.
  destruct (is_str cid || is_str csec) eqn:Hstr.
  - destruct (init_frame env cid csec
                (mkState (self st) (log st ++ [EvTime now])) Hstr)
      as (_ & _ & _ & Hq & _).
    cbn [log] in Hq. apply quiet_after in Hq as (t & E & Hno).
    exists (EvTime now :: EvHttp (auth_request cid csec)
                            (http env (log st ++ [EvTime now])
                                  (auth_request cid csec)) :: t).
    split; [| split].
    + rewrite E, <- app_assoc. reflexivity.
    + cbn. apply Hno.
    + unfold count_requests. cbn. rewrite Hno. cbn. lia.
  - apply orb_false_elim in Hstr as [Hi Hs].
    rewrite (init_rejects env cid csec _ Hi Hs). apply Hquiet.
Qed.

(** X7. In any state whatsoever, [genres] sends at most one POST and at
    most one GET, and the POST, if any, comes first: there is no retry and
    no second query. *)
Theorem genres_sends_at_most_two_requests (st : State) :
  exists renewal query,
    log (snd (genres env st)) = log st ++ renewal ++ query /\
    requests_of GET renewal = [] /\
    (count_requests POST renewal <= 1)%nat /\
    requests_of POST query = [] /\
    (count_requests GET query <= 1)%nat.
Proof.
  destruct (update_token_budget st) as (renewal & E & Hget & Hpost).
  rewrite genres_fetch. unfold bind.
  destruct (update_token env st) as [[[] | e] st1]; cbn [snd] in *.
  - destruct (fetch_frame env "recommendations/available-genre-seeds" [] st1)
      as [_ [E1 | (rq & rp & Hm & E1)]]; rewrite E1, E.
    + exists renewal, []. rewrite app_nil_r. cbn. repeat split; auto.
    + exists renewal, [EvHttp rq rp]. rewrite <- app_assoc.
      destruct rq as [m u p d hd]. cbn in Hm. subst m.
      unfold count_requests. cbn. repeat split; auto.
  - exists renewal, []. rewrite app_nil_r, E. cbn. repeat split; auto.
Qed.

(** X8. [search] never changes the object, never reads the clock, never
    prints and never sends an authorization request, in any state and
    however it ends: the only thing it can add to the history is its one
    GET. *)
Theorem search_only_sends_its_get (q t : string) (st : State) :
  let st' := snd (search env q t st) in
  self st' = self st /\
  (log st' = log st \/
   exists rq rp, req_method rq = GET /\ log st' = log st ++ [EvHttp rq rp]).
Proof. rewrite search_fetch. apply fetch_frame. Qed.

(** X9. A renewal answered with an unusable token makes a stale token
    look fresh.  [genres] raises the [TypeError] without sending its GET,
    but the issue time has moved to the new clock reading while the header
    set is still the old one; a later [genres] call within 3600 seconds of
    that reading sends no authorization request and queries under the old
    bearer header. *)
Theorem unusable_token_hides_stale_headers
    (st : State) (started : Q) (cid csec : pyval) (headers : dict string)
    (status : Z) (v : json) :
  start (self st) = Some started ->
  client_id (self st) = Some cid ->
  client_secret (self st) = Some csec ->
  is_str cid || is_str csec = true ->
  api_headers (self st) = Some headers ->
  let now := clock env (log st) in
  (3600 < now - started)%Q ->
  let auth := auth_request cid csec in
  let rp := Response status (Some v) in
  http env (log st ++ [EvTime now]) auth = rp ->
  py_in "access_token" v = Ok true ->
  (forall token, py_getitem v "access_token" <> Ok (JStr token)) ->
  let issued := clock env (log st ++ [EvTime now; EvHttp auth rp]) in
  let o := set_start issued (with_credentials cid csec (self st)) in
  (exists msg,
      genres env st =
      (Raise (TypeError msg),
       mkState o (log st ++ [EvTime now; EvHttp auth rp; EvTime issued]))) /\
  forall h' : history,
    ~ (3600 < clock env h' - issued)%Q ->
    let h := h' ++ [EvTime (clock env h')] in
    let rq := genres_request headers in
    genres env (mkState o h') =
    (json_result (http env h rq), mkState o (h ++ [EvHttp rq (http env h rq)])).
Proof.
  intros Hs Hid Hsec Hstr Hhdr now Hstale auth rp Hrp Hin Hbad issued o.
  split.
  - destruct (on_response_member v
                (mkState (with_credentials cid csec (self st))
                         (log st ++ [EvTime now; EvHttp auth rp])) Hin)
      as [(token & Htok & _) | (_ & msg & E)];
      [now contradiction (Hbad token) |].
    exists msg. apply genres_renewal_raises.
    rewrite (update_token_stale env st started cid csec Hs Hid Hsec Hstale).
    fold now. rewrite (init_sends env cid csec _ Hstr). cbn [self log].
    fold auth. rewrite Hrp. unfold rp at 1.
    rewrite <- app_assoc. cbn [app].
    rewrite E. cbn [self log]. fold issued. fold o.
    now rewrite <- app_assoc.
  - intros h' Hfresh h rq.
    assert (Hup : update_token env (mkState o h') = (Ok tt, mkState o h)).
    { exact (update_token_fresh env (mkState o h') issued eq_refl Hfresh). }
    exact (genres_sends env (mkState o h') (mkState o h) headers
             Hup eq_refl Hhdr).
Qed.

(** *** Objects stay well formed *)

Lemma on_response_consistent (v : json) (st : State) :
  token_consistent (self st) ->
  token_consistent (self (snd (on_response env v st))).
Proof.
  intros [Hform Hissued].
  destruct (py_in "access_token" v) as [[|] | e] eqn:Hin.
  - destruct (on_response_member v st Hin)
      as [(token & _ & E) | (_ & msg & E)]; rewrite E; cbn [snd self].
    + split; [right; now exists token | discriminate].
    + split; [exact Hform | discriminate].
  - destruct (on_response_no_member v st) as [[err E] | [e E]];
      [congruence | |]; rewrite E; cbn [snd self]; now split.
  - destruct (on_response_no_member v st) as [[err E] | [e' E]];
      [congruence | |]; rewrite E; cbn [snd self]; now split.
Qed.

Lemma init_consistent (cid csec : pyval) (st : State) :
  token_consistent (self st) ->
  let st' := snd (__init__ env cid csec st) in
  token_consistent (self st') /\
  (is_str cid || is_str csec = true -> consistent (self st')) /\
  (is_str cid || is_str csec = false -> st' = st).
Proof.
  intros Hc st'. subst st'.
  destruct (is_str cid || is_str csec) eqn:Hstr.
  - assert (Ht : token_consistent
                   (self (snd (__init__ env cid csec st)))).
    { rewrite (init_sends env cid csec st Hstr).
      destruct (http env (log st) _) as [msg | status [v |]];
        cbn [snd self]; try exact Hc.
      now apply on_response_consistent. }
    destruct (init_frame env cid csec st Hstr) as (_ & _ & Hu & _).
    split; [exact Ht |]. split; [intros _; now split | discriminate].
  - apply orb_false_elim in Hstr as [Hi Hs].
    rewrite (init_rejects env cid csec st Hi Hs). cbn [snd].
    split; [exact Hc |]. split; [discriminate | reflexivity].
Qed.

Lemma update_token_consistent (st : State) :
  consistent (self st) -> consistent (self (snd (update_token env st))).
Proof.
  intros Hc.
  destruct (update_token_cases env st)
    as [[e H] | [H | (cid & csec & _ & _ & H)]];
    rewrite H; cbn [snd self]; try exact Hc.
  destruct (init_consistent cid csec
              (mkState (self st) (log st ++ [EvTime (clock env (log st))]))
              (proj2 Hc)) as (_ & Hacc & Hrej).
  destruct (is_str cid || is_str csec).
  - now apply Hacc.
  - now rewrite Hrej.
Qed.

Lemma perform_consistent (c : call) (st : State) :
  consistent (self st) -> consistent (self (perform env c st)).
Proof.
  intro Hc. destruct c as [| q t |]; cbn [perform].
  - rewrite genres_fetch. unfold bind.
    pose proof (update_token_consistent st Hc) as Hup.
    destruct (update_token env st) as [[[] | e] st1]; cbn [snd] in *;
      [| exact Hup].
    destruct (fetch_frame env "recommendations/available-genre-seeds" [] st1)
      as [Hself _].
    now rewrite Hself.
  - rewrite search_fetch.
    destruct (fetch_frame env "search" [("q", q); ("type", t)] st)
      as [Hself _].
    now rewrite Hself.
  - now apply update_token_consistent.
Qed.

Lemma construct_consistent
    (cid csec : pyval) (h0 h1 : history) (o : SpotifyAPI) :
  construct env cid csec h0 = (Ok o, h1) -> consistent o.
Proof.
  intro Hc. unfold construct in Hc.
  assert (Hnew : token_consistent (self (mkState new_object h0))).
  { split; [now left | intro H; now contradiction H]. }
  destruct (init_consistent cid csec (mkState new_object h0) Hnew)
    as (_ & Hacc & Hrej).
  destruct (is_str cid || is_str csec) eqn:Hstr.
  - destruct (__init__ env cid csec (mkState new_object h0))
      as [[[] | e] st1]; [| discriminate].
    injection Hc as <- _. now apply Hacc.
  - apply orb_false_elim in Hstr as [Hi Hs].
    rewrite (init_rejects env cid csec _ Hi Hs) in Hc. discriminate.
Qed.

Lemma perform_all_consistent (calls : list call) (st : State) :
  consistent (self st) -> consistent (self (perform_all env calls st)).
Proof.
  revert st. induction calls as [| c calls IH]; intros st Hst; [exact Hst |].
  cbn [perform_all fold_left]. apply IH. now apply perform_consistent.
Qed.

(** X10. Every object the constructor returns is well formed and stays so
    under any sequence of [genres], [search] and [update_token] calls,
    whether they return or raise: the URLs are the two fixed ones, the
    header set is either absent or the three-entry set built for some
    token, and a header set never exists without an issue time. *)
Theorem constructed_objects_stay_consistent
    (cid csec : pyval) (h0 h1 : history) (o : SpotifyAPI)
    (calls : list call) :
  construct env cid csec h0 = (Ok o, h1) ->
  consistent o /\
  consistent (self (perform_all env calls (mkState o h1))).
Proof.
  intro Hc.
  pose proof (construct_consistent cid csec h0 h1 o Hc) as Ho.
  split; [exact Ho |].
  now apply perform_all_consistent.
Qed.

(** X11. On a constructed object, after any calls, [search] can only go
    two ways: without a header set it raises [AttributeError] on
    [api_headers] and sends nothing; with one it sends its GET under the
    bearer header of some token and returns what the reply gives.  It never
    fails on the URLs. *)
Theorem search_after_any_calls
    (cid csec : pyval) (h0 h1 : history) (o : SpotifyAPI)
    (calls : list call) (q t : string) :
  construct env cid csec h0 = (Ok o, h1) ->
  let st := perform_all env calls (mkState o h1) in
  (api_headers (self st) = None /\
   search env q t st = (Raise (AttributeError "api_headers"), st)) \/
  (exists token,
      api_headers (self st) = Some (bearer_headers token) /\
      let rq := search_request q t (bearer_headers token) in
      let rp := http env (log st) rq in
      search env q t st =
      (json_result rp, mkState (self st) (log st ++ [EvHttp rq rp]))).
Proof.
  intros Hc st.
  pose proof (construct_consistent cid csec h0 h1 o Hc) as Ho.
  destruct (perform_all_consistent calls (mkState o h1) Ho)
    as (Hurls & [Hnone | [token Hsome]] & _).
  - left. split; [exact Hnone |]. now apply search_unauthenticated.
  - right. exists token. split; [exact Hsome |].
    exact (search_sends env q t st (bearer_headers token) Hurls Hsome).
Qed.

(** *** The authorization header *)

Lemma string_app_inj_l (p a b : string) :
  (p ++ a = p ++ b)%string -> a = b.
Proof.
  induction p as [| c p IH]; cbn; intro E; [exact E |].
  injection E as E. now apply IH.
Qed.

(** X12. Two credential pairs send the same authorization request exactly
    when their texts [id:secret] are the same: the header loses nothing of
    that text (it can be decoded back), and tells apart nothing else. *)
Theorem auth_request_same_iff (cid1 csec1 cid2 csec2 : pyval) :
  auth_request cid1 csec1 = auth_request cid2 csec2 <->
  (py_format cid1 ++ ":" ++ py_format csec1)%string =
  (py_format cid2 ++ ":" ++ py_format csec2)%string.
Proof.
  split.
  - intro E.
    destruct (basic_header_decodes cid1 csec1) as (p1 & H1 & D1).
    destruct (basic_header_decodes cid2 csec2) as (p2 & H2 & D2).
    rewrite E in H1.
    assert (Hp : ("Basic " ++ p1 = "Basic " ++ p2)%string) by congruence.
    apply string_app_inj_l in Hp. subst p2. congruence.
  - intro E. unfold auth_request. now rewrite E.
Qed.

(** *** [__str__] *)

Lemma py_round_near (x : Q) :
  (- (1 # 2) <= inject_Z (py_round x) - x <= 1 # 2)%Q.
Proof.
  pose proof (Qfloor_le x) as Hlo. pose proof (Qlt_floor x) as Hhi.
  rewrite inject_Z_plus in Hhi. change (inject_Z 1) with 1%Q in Hhi.
  unfold py_round.
  destruct (x - inject_Z (Qfloor x) ?= 1 # 2)%Q eqn:Hc.
  - apply Qeq_alt in Hc.
    destruct (Z.even (Qfloor x)).
    + lra.
    + rewrite inject_Z_plus. change (inject_Z 1) with 1%Q. lra.
  - apply Qlt_alt in Hc. lra.
  - apply Qgt_alt in Hc.
    rewrite inject_Z_plus. change (inject_Z 1) with 1%Q. lra.
Qed.

(** X13. On an object with an issue time, [__str__] reads the clock once,
    prints one summary and returns the empty string; it changes nothing in
    the object and sends no request, however old the token is.  The elapsed
    time in the summary is a whole number of seconds within half a second
    of the time since issue. *)
Theorem str_reports_elapsed (st : State) (started : Q) :
  start (self st) = Some started ->
  let now := clock env (log st) in
  let elapsed := py_round (now - started) in
  __str__ env st =
    (Ok ""%string,
     mkState (self st) (log st ++ [EvTime now]),
     [summary "SpotifyAPI" (elapsed_text elapsed)]) /\
  (- (1 # 2) <= inject_Z elapsed - (now - started) <= 1 # 2)%Q.
Proof.
  intros Hs now elapsed. split; [| apply py_round_near].
  unfold __str__, bind, time, getattr, ret. cbn [self log]. now rewrite Hs.
Qed.

(** X14. The elapsed time is shown in seconds up to and including 60; from
    61 on it is split into minutes and seconds that add up to it, with
    fewer than 60 seconds and at least one minute. *)
Theorem elapsed_text_splits (elapsed : Z) :
  ((elapsed <= 60)%Z ->
   elapsed_text elapsed = (py_format (PyInt elapsed) ++ " seconds")%string) /\
  ((60 < elapsed)%Z ->
   exists minutes seconds : Z,
     elapsed_text elapsed =
       (py_format (PyInt minutes) ++ " minutes " ++
        py_format (PyInt seconds) ++ " seconds")%string /\
     (elapsed = 60 * minutes + seconds)%Z /\
     (0 <= seconds < 60)%Z /\
     (1 <= minutes)%Z).
Proof.
  unfold elapsed_text. split; intro H.
  - apply Z.ltb_ge in H. now rewrite H.
  - pose proof H as Hb. apply Z.ltb_lt in Hb. rewrite Hb.
    exists (elapsed / 60)%Z, (elapsed mod 60)%Z.
    split; [reflexivity |].
    pose proof (Z.div_mod elapsed 60 ltac:(lia)).
    pose proof (Z.mod_pos_bound elapsed 60 ltac:(lia)).
    repeat split; lia.
Qed.

(** X15. After a construction whose reply grants no token, [__str__] on
    the object raises [AttributeError] on [start], after reading the clock
    and without printing anything. *)
Theorem str_after_failed_authorization
    (cid csec : pyval) (h : history) :
  is_str cid || is_str csec = true ->
  (forall status v,
      http env h (auth_request cid csec) = Response status (Some v) ->
      py_in "access_token" v <> Ok true) ->
  let o := self (snd (__init__ env cid csec (mkState new_object h))) in
  forall h' : history,
    __str__ env (mkState o h') =
    (Raise (AttributeError "start"),
     mkState o (h' ++ [EvTime (clock env h')]), []).
Proof.
  intros Hstr Hno o h'.
  destruct (init_frame env cid csec (mkState new_object h) Hstr)
    as (_ & _ & _ & _ & Hkeep & _).
  destruct (Hkeep Hno) as [Hstart _]. fold o in Hstart. cbn in Hstart.
  unfold __str__, bind, time, getattr. cbn [self log]. now rewrite Hstart.
Qed.

(** *** What the constructor returns *)

(** X16. The constructor returns an object in two situations only.  Either
    a string token was granted: the object has an issue time and the header
    set of that token, and no attribute [access_token] at all.  Or the reply
    was refused with an [error]: the object has neither issue time nor
    header set, and [access_token] is the number 0.  In every other
    situation the constructor raises. *)
Theorem constructor_returns_two_kinds
    (cid csec : pyval) (h0 h1 : history) (o : SpotifyAPI) :
  construct env cid csec h0 = (Ok o, h1) ->
  (exists (token : string) (issued : Q),
      o = mkSpotifyAPI (Some default_urls) (Some cid) (Some csec)
                       (Some issued) (Some (bearer_headers token)) None) \/
  o = mkSpotifyAPI (Some default_urls) (Some cid) (Some csec)
                   None None (Some 0%Z).
Proof.
  unfold construct. intro Hc.
  destruct (is_str cid || is_str csec) eqn:Hstr.
  2: { apply orb_false_elim in Hstr as [Hi Hs].
       rewrite (init_rejects env cid csec _ Hi Hs) in Hc. discriminate. }
  rewrite (init_sends env cid csec _ Hstr) in Hc. cbn [self log] in Hc.
  destruct (http env h0 (auth_request cid csec)) as [msg | status [v |]];
    try discriminate Hc.
  destruct (py_in "access_token" v) as [[|] | e] eqn:Hin.
  - destruct (on_response_member v
                (mkState (with_credentials cid csec new_object)
                         (h0 ++ [EvHttp (auth_request cid csec)
                                        (Response status (Some v))])) Hin)
      as [(token & _ & E) | (_ & msg & E)];
      rewrite E in Hc; [| discriminate].
    injection Hc as <- _. left. eexists. eexists. reflexivity.
  - destruct (on_response_no_member v
                (mkState (with_credentials cid csec new_object)
                         (h0 ++ [EvHttp (auth_request cid csec)
                                        (Response status (Some v))])))
      as [[err E] | [e E]]; [congruence | |];
      rewrite E in Hc; [| discriminate].
    injection Hc as <- _. right. reflexivity.
  - destruct (on_response_no_member v
                (mkState (with_credentials cid csec new_object)
                         (h0 ++ [EvHttp (auth_request cid csec)
                                        (Response status (Some v))])))
      as [[err E] | [e' E]]; [congruence | |];
      rewrite E in Hc; [| discriminate].
    injection Hc as <- _. right. reflexivity.
Qed.

End More.

(* ================================================================= *)
(** ** The further properties at work on the mock runs *)

Lemma init_refuses_iff_no_string_witness :
  __init__ late_world PyNone (PyInt 7) ready =
  (Raise (TypeError "Both client_id and client_secret must be strings"), ready).
Proof.
  apply (proj2 (init_refuses_iff_no_string late_world PyNone (PyInt 7) ready)).
  split; reflexivity.
Defined.

Lemma init_reply_without_error_key_witness :
  let rq := auth_request (PyStr "id") (PyStr "secret") in
  let kvs := [("message", JStr "service unavailable")] in
  http keyless_world [] rq = Response 503 (Some (JObj kvs)) /\
  dict_lookup "access_token" kvs = None /\
  dict_lookup "error" kvs = None /\
  construct keyless_world (PyStr "id") (PyStr "secret") [] =
    (Raise (KeyError "error"), [EvHttp rq odd_reply]).
Proof.
  intros rq kvs.
  split; [reflexivity |]. split; [reflexivity |]. split; [reflexivity |].
  unfold construct.
  rewrite (init_reply_without_error_key keyless_world
             (PyStr "id") (PyStr "secret") (mkState new_object [])
             503%Z kvs eq_refl eq_refl eq_refl eq_refl).
  reflexivity.
Defined.

Lemma init_unusable_token_witness :
  let rq := auth_request (PyStr "id") (PyStr "secret") in
  let v := JObj [("access_token", JInt 123)] in
  http numeric_world (log ready) rq = Response 200 (Some v) /\
  py_in "access_token" v = Ok true /\
  (forall token, py_getitem v "access_token" <> Ok (JStr token)) /\
  exists msg,
    __init__ numeric_world (PyStr "id") (PyStr "secret") ready =
    (Raise (TypeError msg),
     mkState (client_at 4000 "tok1")
             (log ready ++ [EvHttp rq numeric_token; EvTime 4000])).
Proof.
  intros rq v.
  assert (Hbad : forall token, py_getitem v "access_token" <> Ok (JStr token))
    by (intro token; discriminate).
  split; [reflexivity |]. split; [reflexivity |]. split; [exact Hbad |].
  destruct (init_unusable_token numeric_world (PyStr "id") (PyStr "secret")
              ready 200%Z v eq_refl eq_refl eq_refl Hbad) as [msg [E _]].
  exists msg. exact E.
Defined.

Lemma renewal_without_grant_keeps_token_witness :
  (forall status v,
      http refusing_world (log ready ++ [EvTime 4000])
           (auth_request (PyStr "id") (PyStr "secret")) =
        Response status (Some v) ->
      py_in "access_token" v <> Ok true) /\
  start (self (snd (genres refusing_world ready))) = Some 0%Q /\
  api_headers (self (snd (genres refusing_world ready))) =
    Some (bearer_headers "tok1").
Proof.
  assert (Hno : forall status v,
      http refusing_world (log ready ++ [EvTime 4000])
           (auth_request (PyStr "id") (PyStr "secret")) =
        Response status (Some v) ->
      py_in "access_token" v <> Ok true).
  { intros status v E.
    change (invalid_client = Response status (Some v)) in E.
    injection E as _ <-. discriminate. }
  split; [exact Hno |].
  exact (renewal_without_grant_keeps_token refusing_world ready
           (PyStr "id") (PyStr "secret") eq_refl eq_refl Hno).
Defined.

Lemma failed_renewal_is_retried_witness :
  let auth := auth_request (PyStr "id") (PyStr "secret") in
  let h' := log (snd (genres stubborn_world ready)) in
  (3600 < clock stubborn_world (log ready) - 0)%Q /\
  (clock stubborn_world (log ready) <= clock stubborn_world h')%Q /\
  requests_of POST
    (log (snd (genres stubborn_world
                 (mkState (self (snd (genres stubborn_world ready))) h')))) =
  [auth; auth; auth].
Proof.
  intros auth h'.
  assert (Hstale : (3600 < clock stubborn_world (log ready) - 0)%Q)
    by reflexivity.
  assert (Hlater : (clock stubborn_world (log ready)
                    <= clock stubborn_world h')%Q)
    by (intro H; discriminate H).
  assert (Hno : forall status v,
      http stubborn_world (log ready ++ [EvTime 4000]) auth =
        Response status (Some v) ->
      py_in "access_token" v <> Ok true).
  { intros status v E.
    change (invalid_client = Response status (Some v)) in E.
    injection E as _ <-. discriminate. }
  split; [exact Hstale |]. split; [exact Hlater |].
  exact (failed_renewal_is_retried stubborn_world ready 0
           (PyStr "id") (PyStr "secret") eq_refl eq_refl eq_refl eq_refl
           Hstale Hno h' Hlater).
Defined.

Lemma granted_renewal_serves_the_query_witness :
  let auth := auth_request (PyStr "id") (PyStr "secret") in
  let rq := genres_request (bearer_headers "tok2") in
  (3600 < clock late_world (log ready) - 0)%Q /\
  http late_world (log ready ++ [EvTime 4000]) auth = granted "tok2" /\
  genres late_world ready =
    (Ok genres_body,
     mkState (client_at 0 "tok2")
             (log ready ++ [EvTime 4000; EvHttp auth (granted "tok2");
                            EvTime 0; EvPrint AccessGranted;
                            EvHttp rq (Response 200 (Some genres_body))])).
Proof.
  intros auth rq.
  assert (Hstale : (3600 < clock late_world (log ready) - 0)%Q)
    by reflexivity.
  split; [exact Hstale |]. split; [reflexivity |].
  exact (proj1 (granted_renewal_serves_the_query late_world ready 0
                  (PyStr "id") (PyStr "secret") 200%Z
                  [("access_token", JStr "tok2"); ("token_type", JStr "Bearer");
                   ("expires_in", JInt 3600)] "tok2"
                  eq_refl eq_refl eq_refl eq_refl Hstale eq_refl eq_refl)).
Defined.

Lemma unusable_token_hides_stale_headers_witness :
  let auth := auth_request (PyStr "id") (PyStr "secret") in
  let v := JObj [("access_token", JInt 123)] in
  let o := client_at 4001 "tok1" in
  let h' := log ready ++ [EvTime 4000; EvHttp auth numeric_token; EvTime 4001] in
  let rq := genres_request (bearer_headers "tok1") in
  (3600 < clock numeric_world (log ready) - 0)%Q /\
  http numeric_world (log ready ++ [EvTime 4000]) auth = numeric_token /\
  py_in "access_token" v = Ok true /\
  ~ (3600 < clock numeric_world h' - 4001)%Q /\
  genres numeric_world (mkState o h') =
    (Ok genres_body,
     mkState o (h' ++ [EvTime 4100;
                       EvHttp rq (Response 200 (Some genres_body))])).
Proof.
  intros auth v o h' rq.
  assert (Hstale : (3600 < clock numeric_world (log ready) - 0)%Q)
    by reflexivity.
  assert (Hbad : forall token, py_getitem v "access_token" <> Ok (JStr token))
    by (intro token; discriminate).
  assert (Hfresh : ~ (3600 < clock numeric_world h' - 4001)%Q)
    by (intro H; discriminate H).
  split; [exact Hstale |]. split; [reflexivity |]. split; [reflexivity |].
  split; [exact Hfresh |].
  exact (proj2 (unusable_token_hides_stale_headers numeric_world ready 0
                  (PyStr "id") (PyStr "secret") (bearer_headers "tok1")
                  200%Z v eq_refl eq_refl eq_refl eq_refl eq_refl Hstale
                  eq_refl eq_refl Hbad) h' Hfresh).
Defined.

Lemma constructed_objects_stay_consistent_witness :
  let calls := [CallGenres; CallSearch "Post Malone" "artist";
                CallUpdateToken] in
  construct refusing_world (PyStr "id") (PyStr "secret") [] =
    (Ok (self ready), log ready) /\
  consistent (self (perform_all refusing_world calls ready)).
Proof.
  intro calls. split; [reflexivity |].
  exact (proj2 (constructed_objects_stay_consistent refusing_world
                  (PyStr "id") (PyStr "secret") [] (log ready) (self ready)
                  calls eq_refl)).
Defined.

Lemma search_after_any_calls_witness :
  let calls := [CallGenres] in
  let st := perform_all late_world calls ready in
  construct late_world (PyStr "id") (PyStr "secret") [] =
    (Ok (self ready), log ready) /\
  ((api_headers (self st) = None /\
    search late_world "Post Malone" "artist" st =
      (Raise (AttributeError "api_headers"), st)) \/
   (exists token,
       api_headers (self st) = Some (bearer_headers token) /\
       let rq := search_request "Post Malone" "artist" (bearer_headers token) in
       let rp := http late_world (log st) rq in
       search late_world "Post Malone" "artist" st =
         (json_result rp, mkState (self st) (log st ++ [EvHttp rq rp])))).
Proof.
  intros calls st. split; [reflexivity |].
  exact (search_after_any_calls late_world (PyStr "id") (PyStr "secret")
           [] (log ready) (self ready) calls "Post Malone" "artist" eq_refl).
Defined.

Lemma auth_request_same_iff_witness :
  auth_request (PyStr "a:b") (PyStr "c") = auth_request (PyStr "a") (PyStr "b:c").
Proof.
  apply (proj2 (auth_request_same_iff (PyStr "a:b") (PyStr "c")
                  (PyStr "a") (PyStr "b:c"))).
  reflexivity.
Defined.

Lemma str_reports_elapsed_witness :
  start (self ready) = Some 0%Q /\
  __str__ late_world ready =
    (Ok ""%string,
     mkState (self ready) (log ready ++ [EvTime 4000]),
     [summary "SpotifyAPI" "66 minutes 40 seconds"]).
Proof.
  split; [reflexivity |].
  exact (proj1 (str_reports_elapsed late_world ready 0 eq_refl)).
Defined.

Lemma elapsed_text_splits_witness :
  (60 <= 60)%Z /\ elapsed_text 60 = "60 seconds"%string /\
  (60 < 61)%Z /\
  exists minutes seconds : Z,
    elapsed_text 61 =
      (py_format (PyInt minutes) ++ " minutes " ++
       py_format (PyInt seconds) ++ " seconds")%string /\
    (61 = 60 * minutes + seconds)%Z /\
    (0 <= seconds < 60)%Z /\
    (1 <= minutes)%Z.
Proof.
  split; [lia |].
  split; [exact (proj1 (elapsed_text_splits 60) ltac:(lia)) |].
  split; [lia |].
  exact (proj2 (elapsed_text_splits 61) ltac:(lia)).
Defined.

Lemma str_after_failed_authorization_witness :
  let auth := auth_request (PyStr "id") (PyStr "secret") in
  let o := self (snd (__init__ closed_world (PyStr "id") (PyStr "secret")
                        (mkState new_object []))) in
  (forall status v,
      http closed_world [] auth = Response status (Some v) ->
      py_in "access_token" v <> Ok true) /\
  __str__ closed_world (mkState o []) =
    (Raise (AttributeError "start"), mkState o [EvTime 0], []).
Proof.
  intros auth o.
  assert (Hno : forall status v,
             http closed_world [] auth = Response status (Some v) ->
             py_in "access_token" v <> Ok true).
  { intros status v E.
    change (invalid_client = Response status (Some v)) in E.
    injection E as _ <-. discriminate. }
  split; [exact Hno |].
  exact (str_after_failed_authorization closed_world
           (PyStr "id") (PyStr "secret") [] eq_refl Hno []).
Defined.

Lemma constructor_returns_two_kinds_witness :
  construct closed_world (PyStr "id") (PyStr "secret") [] =
    (Ok (mkSpotifyAPI (Some default_urls) (Some (PyStr "id"))
                      (Some (PyStr "secret")) None None (Some 0%Z)),
     [ EvHttp (auth_request (PyStr "id") (PyStr "secret")) invalid_client;
       EvPrint (ErrorMessage (JStr "invalid_client")) ]) /\
  ((exists (token : string) (issued : Q),
       mkSpotifyAPI (Some default_urls) (Some (PyStr "id"))
                    (Some (PyStr "secret")) None None (Some 0%Z) =
       mkSpotifyAPI (Some default_urls) (Some (PyStr "id"))
                    (Some (PyStr "secret"))
                    (Some issued) (Some (bearer_headers token)) None) \/
   mkSpotifyAPI (Some default_urls) (Some (PyStr "id"))
                (Some (PyStr "secret")) None None (Some 0%Z) =
   mkSpotifyAPI (Some default_urls) (Some (PyStr "id"))
                (Some (PyStr "secret")) None None (Some 0%Z)).
Proof.
  split; [reflexivity |].
  exact (constructor_returns_two_kinds closed_world
           (PyStr "id") (PyStr "secret") [] _ _ eq_refl).
Defined.
